(** * Upper-triangular transfer with an MPI derived datatype

    A shallow embedding of [src/main.c]: the layout builder
    [generar_tipo_triangular_superior], the matrix constructor
    [crear_matriz], the printer [mostrar_matriz], the validator
    [verificar_configuracion] and [main], followed by the properties of the
    specification that were checked against them.

    Conventions of the embedding
    - a C [int] is a [Z] kept in the 32-bit two's-complement range by
      [Int32.wrap] after every arithmetic operation (C leaves signed overflow
      undefined; the wrap is what the usual targets compute, and in either
      reading a value outside the range cannot be stored in an [int]);
    - a [malloc]ed array of [int] is an [option (list Z)]: [None] is the null
      pointer, [Some l] a block whose current contents are [l]; a fresh block
      holds arbitrary values chosen by the allocator;
    - the program runs in a reader/state/error monad [M]: the state carries
      the trace of observable events (library calls and console output), the
      number of allocations made so far and the mailbox of the process;
    - the MPI library is not part of the repository: its calls are modelled
      after the MPI standard (an indexed datatype is the ordered list of its
      blocks, a send gathers the elements the type map names, a receive
      scatters them at the same displacements). *)

From Stdlib Require Import Ascii String.
From stdpp Require Import base list strings pretty numbers gmap.

Open Scope Z_scope.

(** ** Machine integers *)

Module Int32.

Definition MIN : Z := -2147483648.
Definition MAX : Z := 2147483647.

Definition wrap (z : Z) : Z := (z + 2147483648) `mod` 4294967296 - 2147483648.

Definition add (a b : Z) : Z := wrap (a + b).
Definition sub (a b : Z) : Z := wrap (a - b).
Definition mul (a b : Z) : Z := wrap (a * b).

Definition en_rango (z : Z) : Prop := MIN ≤ z ≤ MAX.

End Int32.

(** [size_t] on an LP64 target, and [sizeof(int)]. *)
Definition size_t (z : Z) : Z := z `mod` 18446744073709551616.
Definition size_mul (a b : Z) : Z := size_t (a * b).
Definition sizeof_int : Z := 4.

(** ** Outcomes *)

Inductive resultado (A : Type) : Type :=
| Hecho (a : A)            (* the call returns *)
| Indefinido               (* access through a null or out-of-range pointer *)
| Abortado (codigo : Z)    (* MPI_Abort was called with this code *)
| ErrorMPI                 (* the library's fatal error handler was entered *)
| Bloqueado.               (* a blocking call that is never matched *)

Arguments Hecho {A} a.
Arguments Indefinido {A}.
Arguments Abortado {A} codigo.
Arguments ErrorMPI {A}.
Arguments Bloqueado {A}.

#[global] Instance resultado_ret : MRet resultado := λ A a, Hecho a.

#[global] Instance resultado_bind : MBind resultado := λ A B f m,
  match m with
  | Hecho a => f a
  | Indefinido => Indefinido
  | Abortado c => Abortado c
  | ErrorMPI => ErrorMPI
  | Bloqueado => Bloqueado
  end.

(** ** Arrays of int behind a pointer *)

Definition puntero : Type := option (list Z).

Definition almacenar (p : puntero) (i v : Z) : resultado puntero :=
  match p with
  | None => Indefinido
  | Some l =>
      if bool_decide (0 ≤ i < Z.of_nat (length l))
      then Hecho (Some (<[Z.to_nat i := v]> l))
      else Indefinido
  end.

Definition cargar (p : puntero) (i : Z) : resultado Z :=
  match p with
  | None => Indefinido
  | Some l =>
      if bool_decide (0 ≤ i)
      then match l !! Z.to_nat i with
           | Some v => Hecho v
           | None => Indefinido
           end
      else Indefinido
  end.

(** ** The derived datatype of the library *)

(** An indexed datatype over [MPI_INT]: its blocks, in order, each a
    (block length, displacement) pair counted in elements, and whether it
    has been committed. *)
Record MPI_Datatype : Type := {
  bloques : list (Z * Z);
  confirmado : bool
}.

(** The type map: the displacements the datatype names, in transfer order. *)
Definition desplazamientos_bloque (b : Z * Z) : list Z :=
  (λ k, snd b + k) <$> seqZ 0 (fst b).

Definition mapa_tipo (t : MPI_Datatype) : list Z :=
  concat (desplazamientos_bloque <$> bloques t).

(** Extent of the datatype in elements (upper bound minus lower bound). *)
Definition extension_tipo (t : MPI_Datatype) : Z :=
  match mapa_tipo t with
  | [] => 0
  | d :: ds => foldr Z.max d ds + 1 - foldr Z.min d ds
  end.

(** ** Events, state and the monad of the program *)

Record mensaje : Type := {
  remitente : Z;
  etiqueta : Z;
  carga : list Z
}.

Inductive evento : Type :=
| EvInit
| EvCommRank (r : Z)
| EvCommSize (n : Z)
| EvVerificar (total_procesos : Z)          (* entry of verificar_configuracion *)
| EvPrintf (texto : string)
| EvAbort (codigo : Z)
| EvBarrier
| EvMalloc (bytes : Z) (p : puntero)
| EvFree (p : puntero)                      (* the block and what it held *)
| EvTypeIndexed (bs : list (Z * Z))
| EvTypeCommit
| EvTypeFree
| EvSend (destino etiqueta : Z) (carga : list Z) (despues : puntero)
| EvRecv (origen etiqueta : Z) (despues : puntero) (* [despues]: buffer on return *)
| EvFinalize.

Inductive respuesta_malloc : Type :=
| Nulo
| Bloque (basura : nat → Z).

Record entorno : Type := {
  rango : Z;
  total : Z;
  oraculo : nat → respuesta_malloc
}.

Record estado : Type := {
  traza : list evento;
  n_malloc : nat;
  buzon : list mensaje
}.

Definition M (A : Type) : Type := entorno → estado → resultado A * estado.

#[global] Instance M_ret : MRet M := λ A a _ s, (Hecho a, s).

#[global] Instance M_bind : MBind M := λ A B f m e s,
  match m e s with
  | (Hecho a, s') => f a e s'
  | (Indefinido, s') => (Indefinido, s')
  | (Abortado c, s') => (Abortado c, s')
  | (ErrorMPI, s') => (ErrorMPI, s')
  | (Bloqueado, s') => (Bloqueado, s')
  end.

Definition elevar {A} (r : resultado A) : M A := λ _ s, (r, s).

Definition registrar (ev : evento) : M unit := λ _ s,
  (Hecho tt, {| traza := traza s ++ [ev]; n_malloc := n_malloc s; buzon := buzon s |}).

Definition preguntar : M entorno := λ e s, (Hecho e, s).

(** Counted loop [for (int i = 0; i < n; i++) cuerpo], the body threading the
    variables it updates. *)
Fixpoint para_cada `{MBind T, MRet T} {S : Type}
    (indices : list Z) (cuerpo : Z → S → T S) (s : S) : T S :=
  match indices with
  | [] => mret s
  | i :: resto => s' ← cuerpo i s; para_cada resto cuerpo s'
  end.

Definition bucle_for `{MBind T, MRet T} {S : Type}
    (n : Z) (cuerpo : Z → S → T S) (s : S) : T S :=
  para_cada (seqZ 0 n) cuerpo s.

(** ** The C library *)

Definition bloque_nuevo (bytes : Z) (basura : nat → Z) : list Z :=
  basura <$> seq 0 (Z.to_nat (bytes `div` sizeof_int)).

Definition malloc (bytes : Z) : M puntero := λ e s,
  let p := match oraculo e (n_malloc s) with
           | Nulo => None
           | Bloque basura => Some (bloque_nuevo bytes basura)
           end in
  (Hecho p, {| traza := traza s ++ [EvMalloc bytes p];
               n_malloc := S (n_malloc s);
               buzon := buzon s |}).

Definition free (p : puntero) : M unit := registrar (EvFree p).

Definition printf (texto : string) : M unit := registrar (EvPrintf texto).

(** ** The MPI library *)

Definition leer_tabla (p : puntero) (n : Z) : resultado (list Z) :=
  if n =? 0 then Hecho []
  else match p with
       | None => Indefinido
       | Some l =>
           if bool_decide (n ≤ Z.of_nat (length l))
           then Hecho (take (Z.to_nat n) l)
           else Indefinido
       end.

Definition MPI_Type_indexed (count : Z) (longitudes desplaz : puntero)
    : M MPI_Datatype :=
  if count <? 0 then elevar ErrorMPI
  else
    ls ← elevar (leer_tabla longitudes count);
    ds ← elevar (leer_tabla desplaz count);
    if existsb (λ l, l <? 0) ls then elevar ErrorMPI
    else
      let bs := zip ls ds in
      registrar (EvTypeIndexed bs);;
      mret {| bloques := bs; confirmado := false |}.

Definition MPI_Type_commit (t : MPI_Datatype) : M MPI_Datatype :=
  registrar EvTypeCommit;;
  mret {| bloques := bloques t; confirmado := true |}.

Definition MPI_Type_free (t : MPI_Datatype) : M unit := registrar EvTypeFree.

(** ** The layout builder (main.c, lines 22-44) *)

(** The two right-hand sides of the loop body (lines 30 and 32). *)
Definition longitud_fila (dimension fila : Z) : Z := Int32.sub dimension fila.
Definition desplazamiento_fila (dimension fila : Z) : Z :=
  Int32.add (Int32.mul fila dimension) fila.

Definition cuerpo_bloques (dimension fila : Z) (tablas : puntero * puntero)
    : resultado (puntero * puntero) :=
  longitudes_bloques ← almacenar tablas.1 fila (longitud_fila dimension fila);
  desplazamientos ← almacenar tablas.2 fila (desplazamiento_fila dimension fila);
  mret (longitudes_bloques, desplazamientos).

Definition llenar_bloques (dimension : Z) (tablas : puntero * puntero)
    : resultado (puntero * puntero) :=
  bucle_for dimension (cuerpo_bloques dimension) tablas.

Definition generar_tipo_triangular_superior (dimension : Z) : M MPI_Datatype :=
  longitudes_bloques ← malloc (size_mul (size_t dimension) sizeof_int);
  desplazamientos ← malloc (size_mul (size_t dimension) sizeof_int);
  tablas ← elevar (llenar_bloques dimension (longitudes_bloques, desplazamientos));
  tipo_triang_sup ← MPI_Type_indexed dimension tablas.1 tablas.2;
  tipo_triang_sup ← MPI_Type_commit tipo_triang_sup;
  free tablas.1;;
  free tablas.2;;
  mret tipo_triang_sup.

(** ** Matrices (main.c, lines 51-81) *)

Definition celda (dimension fila columna : Z) : Z :=
  Int32.add (Int32.mul fila dimension) columna.

Definition crear_matriz (dimension inicializar : Z) : M puntero :=
  matriz ← malloc (size_mul (size_t (Int32.mul dimension dimension)) sizeof_int);
  elevar
    (bucle_for dimension (λ fila matriz,
       bucle_for dimension (λ columna matriz,
         if negb (inicializar =? 0)
         then almacenar matriz (celda dimension fila columna)
                (celda dimension fila columna)
         else almacenar matriz (celda dimension fila columna) 0)
       matriz)
     matriz).

Definition nueva_linea : string := String "010"%char EmptyString.

Fixpoint espacios (n : nat) : string :=
  match n with
  | O => EmptyString
  | S n' => String " "%char (espacios n')
  end.

(** The conversion ["%3d "]: right-justified in a field of width 3. *)
Definition formato_3d (v : Z) : string :=
  let s := pretty v in
  (espacios (3 - String.length s) +:+ s +:+ " ")%string.

Definition mostrar_matriz (datos : puntero) (dimension : Z) : M unit :=
  bucle_for dimension (λ fila _,
    bucle_for dimension (λ columna _,
      v ← elevar (cargar datos (celda dimension fila columna));
      printf (formato_3d v)) tt;;
    printf nueva_linea) tt;;
  printf nueva_linea.

(** ** Point-to-point transfer of the library *)

(** Displacements touched by [count] consecutive copies of the datatype. *)
Definition mapa_mensaje (count : Z) (t : MPI_Datatype) : list Z :=
  concat ((λ i, (λ d, i * extension_tipo t + d) <$> mapa_tipo t) <$> seqZ 0 count).

Fixpoint leer_todos (buf : puntero) (ds : list Z) : resultado (list Z) :=
  match ds with
  | [] => Hecho []
  | d :: resto =>
      v ← cargar buf d;
      vs ← leer_todos buf resto;
      mret (v :: vs)
  end.

Fixpoint escribir_todos (buf : puntero) (ds : list Z) (vs : list Z)
    : resultado puntero :=
  match ds, vs with
  | d :: ds', v :: vs' =>
      buf' ← almacenar buf d v;
      escribir_todos buf' ds' vs'
  | _, _ => Hecho buf
  end.

Definition empaquetar (buf : puntero) (count : Z) (t : MPI_Datatype)
    : resultado (list Z) :=
  leer_todos buf (mapa_mensaje count t).

(** A message longer than the receive type is a truncation error; a shorter
    one fills the leading displacements only. *)
Definition desempaquetar (buf : puntero) (count : Z) (t : MPI_Datatype)
    (vs : list Z) : resultado puntero :=
  if bool_decide (length (mapa_mensaje count t) < length vs)%nat
  then ErrorMPI
  else escribir_todos buf (mapa_mensaje count t) vs.

Definition participante_valido (e : entorno) (r : Z) : bool :=
  (0 <=? r) && (r <? total e).

Definition MPI_Send (buf : puntero) (count : Z) (t : MPI_Datatype)
    (destino etiq : Z) : M unit :=
  e ← preguntar;
  if negb (confirmado t) || (count <? 0) || negb (participante_valido e destino)
  then elevar ErrorMPI
  else
    vs ← elevar (empaquetar buf count t);
    registrar (EvSend destino etiq vs buf).

(** First message of the mailbox from [origen] with tag [etiq], and the
    mailbox without it. *)
Fixpoint extraer (origen etiq : Z) (b : list mensaje)
    : option (mensaje * list mensaje) :=
  match b with
  | [] => None
  | m :: resto =>
      if (remitente m =? origen) && (etiqueta m =? etiq)
      then Some (m, resto)
      else '(m', resto') ← extraer origen etiq resto; Some (m', m :: resto')
  end.

Definition esperar_mensaje (origen etiq : Z) : M mensaje := λ _ s,
  match extraer origen etiq (buzon s) with
  | None => (Bloqueado, s)
  | Some (m, resto) =>
      (Hecho m, {| traza := traza s; n_malloc := n_malloc s; buzon := resto |})
  end.

Definition MPI_Recv (buf : puntero) (count : Z) (t : MPI_Datatype)
    (origen etiq : Z) : M puntero :=
  e ← preguntar;
  if negb (confirmado t) || (count <? 0) || negb (participante_valido e origen)
  then elevar ErrorMPI
  else
    m ← esperar_mensaje origen etiq;
    buf' ← elevar (desempaquetar buf count t (carga m));
    registrar (EvRecv origen etiq buf');;
    mret buf'.

Definition MPI_Init : M unit := registrar EvInit.
Definition MPI_Finalize : M unit := registrar EvFinalize.
Definition MPI_Barrier : M unit := registrar EvBarrier.

Definition MPI_Comm_rank : M Z :=
  e ← preguntar; registrar (EvCommRank (rango e));; mret (rango e).

Definition MPI_Comm_size : M Z :=
  e ← preguntar; registrar (EvCommSize (total e));; mret (total e).

(** [MPI_Abort] does not return: the process ends with the given code. *)
Definition MPI_Abort (codigo : Z) : M unit := λ _ s,
  (Abortado codigo,
   {| traza := traza s ++ [EvAbort codigo]; n_malloc := n_malloc s; buzon := buzon s |}).

(** ** Configuration (main.c, lines 12-15), validator and main *)

Record configuracion : Type := {
  ETIQUETA_MENSAJE : Z;
  PROCESO_ORIGEN : Z;
  PROCESO_DESTINO : Z;
  NUM_ITERACIONES : Z
}.

(** The constants the source defines. *)
Definition config_fuente : configuracion :=
  {| ETIQUETA_MENSAJE := 10; PROCESO_ORIGEN := 0; PROCESO_DESTINO := 1;
     NUM_ITERACIONES := 1 |}.

Definition msg_iteraciones : string :=
  ("Error: NUM_ITERACIONES debe ser 1" +:+ nueva_linea)%string.
Definition msg_iguales : string :=
  ("Error: PROCESO_ORIGEN y PROCESO_DESTINO no pueden ser iguales" +:+ nueva_linea)%string.
Definition msg_procesos : string :=
  ("Error: Se requieren al menos 2 procesos para ejecutar este programa" +:+ nueva_linea)%string.

Section Programa.

Variable cfg : configuracion.

Definition verificar_configuracion (total_procesos : Z) : M unit :=
  registrar (EvVerificar total_procesos);;
  (if negb (NUM_ITERACIONES cfg =? 1)
   then printf msg_iteraciones;; MPI_Abort 1
   else mret tt);;
  (if PROCESO_ORIGEN cfg =? PROCESO_DESTINO cfg
   then printf msg_iguales;; MPI_Abort 1
   else mret tt);;
  (if total_procesos <? 2
   then printf msg_procesos;; MPI_Abort 1
   else mret tt).

(** main.c, lines 108-119: everything a process does before the barrier. *)
Definition antes_de_la_barrera : M Z :=
  MPI_Init;;
  rango_proceso ← MPI_Comm_rank;
  total_procesos ← MPI_Comm_size;
  (if rango_proceso =? PROCESO_ORIGEN cfg
   then verificar_configuracion total_procesos
   else mret tt);;
  mret rango_proceso.

Definition dimension_matriz : Z := 4.

(** main.c, lines 124-165. *)
Definition despues_de_la_barrera (rango_proceso : Z) : M Z :=
  matriz ← crear_matriz dimension_matriz 1;
  tipo_triang_sup ← generar_tipo_triangular_superior dimension_matriz;
  (if rango_proceso =? PROCESO_ORIGEN cfg then
     printf ("Matriz enviada por el proceso " +:+ pretty (PROCESO_ORIGEN cfg)
             +:+ ":" +:+ nueva_linea)%string;;
     mostrar_matriz matriz dimension_matriz;;
     MPI_Send matriz (NUM_ITERACIONES cfg) tipo_triang_sup
       (PROCESO_DESTINO cfg) (ETIQUETA_MENSAJE cfg)
   else if rango_proceso =? PROCESO_DESTINO cfg then
     matriz_recibida ← crear_matriz dimension_matriz 0;
     matriz_recibida ← MPI_Recv matriz_recibida (NUM_ITERACIONES cfg)
       tipo_triang_sup (PROCESO_ORIGEN cfg) (ETIQUETA_MENSAJE cfg);
     printf ("Matriz recibida por el proceso " +:+ pretty (PROCESO_DESTINO cfg)
             +:+ ":" +:+ nueva_linea)%string;;
     mostrar_matriz matriz_recibida dimension_matriz;;
     free matriz_recibida
   else mret tt);;
  free matriz;;
  MPI_Type_free tipo_triang_sup;;
  MPI_Finalize;;
  mret 0.

Definition main : M Z :=
  rango_proceso ← antes_de_la_barrera;
  MPI_Barrier;;
  despues_de_la_barrera rango_proceso.

End Programa.

(** ** The group of processes *)

Definition estado_inicial (b : list mensaje) : estado :=
  {| traza := []; n_malloc := 0; buzon := b |}.

Definition entorno_de (n : Z) (oraculos : Z → nat → respuesta_malloc) (r : Z)
    : entorno :=
  {| rango := r; total := n; oraculo := oraculos r |}.

(** Messages a process handed to the library, with their destination. *)
Definition enviados (r : Z) (t : list evento) : list (Z * mensaje) :=
  omap (λ ev, match ev with
              | EvSend d q vs _ =>
                  Some (d, {| remitente := r; etiqueta := q; carga := vs |})
              | _ => None
              end) t.

Definition es_abortado {A} (x : resultado A * estado) : option Z :=
  match x.1 with Abortado c => Some c | _ => None end.

Inductive resultado_grupo : Type :=
| GrupoAbortado (codigo : Z) (trazas : list (list evento))
| GrupoCompleto (finales : list (resultado Z * estado)).

(** A run of [n] processes. Every process first runs up to the barrier; an
    abort there ends the whole group, nobody passing the barrier. Otherwise
    every process runs to its end; delivery is reliable and keeps the order
    of each sender, and in this program a process sends before it receives
    anything, so the mailbox of a process holds what the others sent to it. *)
Definition ejecutar_grupo (cfg : configuracion) (n : Z)
    (oraculos : Z → nat → respuesta_malloc) : resultado_grupo :=
  let rangos := seqZ 0 n in
  let previos :=
    (λ r, antes_de_la_barrera cfg (entorno_de n oraculos r) (estado_inicial []))
      <$> rangos in
  match omap es_abortado previos with
  | c :: _ => GrupoAbortado c ((λ x, traza x.2) <$> previos)
  | [] =>
      let envios :=
        concat ((λ r, enviados r
                   (traza (main cfg (entorno_de n oraculos r) (estado_inicial [])).2))
                <$> rangos) in
      GrupoCompleto
        ((λ r, main cfg (entorno_de n oraculos r)
                 (estado_inicial (snd <$> filter (λ x, x.1 = r) envios)))
         <$> rangos)
  end.

(** ** The program over a store

    The same program with its arrays behind addresses: a store maps the
    address of every block in use to its contents, [malloc] hands out an
    address never used before, [free] removes the block (freeing what is not
    a block in use is undefined behaviour), and loads and stores go through
    the store. What a call does to a buffer it is handed is then a property
    of the store, not of a value. The parts of the program that touch no
    array (the validator, the prologue, the barrier) are the ones above.

    The library's send is the gather of the standard ([MPI_Pack]): it copies
    the elements the type map names, one by one, into a buffer of the
    library's own, hands that over and releases it. The receive stores the
    values that arrived at the displacements of the type map. *)

Module Memoria.

Definition dir : Type := option nat.

Record almacen : Type := {
  base : estado;                   (* trace, allocation count, mailbox *)
  memoria : gmap nat (list Z);     (* the blocks in use *)
  proximo : nat                    (* the next address to hand out *)
}.

Definition MH (A : Type) : Type := entorno → almacen → resultado A * almacen.

#[global] Instance MH_ret : MRet MH := λ A a _ s, (Hecho a, s).

#[global] Instance MH_bind : MBind MH := λ A B f m e s,
  match m e s with
  | (Hecho a, s') => f a e s'
  | (Indefinido, s') => (Indefinido, s')
  | (Abortado c, s') => (Abortado c, s')
  | (ErrorMPI, s') => (ErrorMPI, s')
  | (Bloqueado, s') => (Bloqueado, s')
  end.

(** A computation that touches no array. *)
Definition de_base {A} (m : M A) : MH A := λ e s,
  ((m e (base s)).1,
   {| base := (m e (base s)).2; memoria := memoria s; proximo := proximo s |}).

Definition falla {A} (r : resultado A) : MH A := λ _ s, (r, s).

Definition entorno_actual : MH entorno := λ e s, (Hecho e, s).

(** What the block at [p] holds now; [None] for null and for an address not
    in use. *)
Definition mirar (s : almacen) (p : dir) : puntero :=
  match p with
  | None => None
  | Some a => memoria s !! a
  end.

Definition contenido (p : dir) : MH puntero := λ _ s, (Hecho (mirar s p), s).

(** A new block at a fresh address. *)
Definition asignar (l : list Z) : MH dir := λ _ s,
  (Hecho (Some (proximo s)),
   {| base := base s;
      memoria := <[proximo s := l]> (memoria s);
      proximo := S (proximo s) |}).

Definition malloc (bytes : Z) : MH dir :=
  respuesta ← de_base (malloc bytes);
  match respuesta with
  | None => mret None
  | Some l => asignar l
  end.

Definition free (p : dir) : MH unit := λ e s,
  match p with
  | None => de_base (free None) e s
  | Some a =>
      match memoria s !! a with
      | None => (Indefinido, s)
      | Some l =>
          de_base (free (Some l)) e
            {| base := base s; memoria := delete a (memoria s); proximo := proximo s |}
      end
  end.

Definition guardar (p : dir) (i v : Z) : MH unit := λ _ s,
  match p with
  | None => (Indefinido, s)
  | Some a =>
      match memoria s !! a with
      | None => (Indefinido, s)
      | Some l =>
          if bool_decide (0 ≤ i < Z.of_nat (length l))
          then (Hecho tt,
                {| base := base s;
                   memoria := <[a := <[Z.to_nat i := v]> l]> (memoria s);
                   proximo := proximo s |})
          else (Indefinido, s)
      end
  end.

Definition leer (p : dir) (i : Z) : MH Z := λ _ s, (cargar (mirar s p) i, s).

Definition printf (texto : string) : MH unit := de_base (printf texto).

(** *** The library *)

Definition MPI_Type_indexed (count : Z) (longitudes desplaz : dir)
    : MH MPI_Datatype :=
  ls ← contenido longitudes;
  ds ← contenido desplaz;
  de_base (MPI_Type_indexed count ls ds).

(** The library's own buffer: taken from the addresses not in use, given
    back after the hand-over. *)
Definition reservar_interno (n : nat) : MH dir := asignar (replicate n 0).

Definition liberar_interno (p : dir) : MH unit := λ _ s,
  match p with
  | None => (Hecho tt, s)
  | Some a =>
      (Hecho tt,
       {| base := base s; memoria := delete a (memoria s); proximo := proximo s |})
  end.

Fixpoint copiar (buf interno : dir) (k : Z) (ds : list Z) : MH unit :=
  match ds with
  | [] => mret tt
  | d :: resto =>
      v ← leer buf d;
      guardar interno k v;;
      copiar buf interno (k + 1) resto
  end.

Definition MPI_Send (buf : dir) (count : Z) (t : MPI_Datatype)
    (destino etiq : Z) : MH unit :=
  e ← entorno_actual;
  if negb (confirmado t) || (count <? 0) || negb (participante_valido e destino)
  then falla ErrorMPI
  else
    interno ← reservar_interno (length (mapa_mensaje count t));
    copiar buf interno 0 (mapa_mensaje count t);;
    vs ← contenido interno;
    liberar_interno interno;;
    despues ← contenido buf;
    de_base (registrar (EvSend destino etiq (default [] vs) despues)).

Fixpoint dispersar (buf : dir) (ds vs : list Z) : MH unit :=
  match ds, vs with
  | d :: ds', v :: vs' => guardar buf d v;; dispersar buf ds' vs'
  | _, _ => mret tt
  end.

Definition MPI_Recv (buf : dir) (count : Z) (t : MPI_Datatype)
    (origen etiq : Z) : MH unit :=
  e ← entorno_actual;
  if negb (confirmado t) || (count <? 0) || negb (participante_valido e origen)
  then falla ErrorMPI
  else
    m ← de_base (esperar_mensaje origen etiq);
    if bool_decide (length (mapa_mensaje count t) < length (carga m))%nat
    then falla ErrorMPI
    else
      dispersar buf (mapa_mensaje count t) (carga m);;
      despues ← contenido buf;
      de_base (registrar (EvRecv origen etiq despues)).

(** *** main.c, lines 22-81 *)

Definition generar_tipo_triangular_superior (dimension : Z) : MH MPI_Datatype :=
  longitudes_bloques ← malloc (size_mul (size_t dimension) sizeof_int);
  desplazamientos ← malloc (size_mul (size_t dimension) sizeof_int);
  bucle_for dimension (λ fila _,
    guardar longitudes_bloques fila (longitud_fila dimension fila);;
    guardar desplazamientos fila (desplazamiento_fila dimension fila)) tt;;
  tipo_triang_sup ← MPI_Type_indexed dimension longitudes_bloques desplazamientos;
  tipo_triang_sup ← de_base (MPI_Type_commit tipo_triang_sup);
  free longitudes_bloques;;
  free desplazamientos;;
  mret tipo_triang_sup.

Definition mostrar_matriz (datos : dir) (dimension : Z) : MH unit :=
  bucle_for dimension (λ fila _,
    bucle_for dimension (λ columna _,
      v ← leer datos (celda dimension fila columna);
      printf (formato_3d v)) tt;;
    printf nueva_linea) tt;;
  printf nueva_linea.

Definition crear_matriz (dimension inicializar : Z) : MH dir :=
  matriz ← malloc (size_mul (size_t (Int32.mul dimension dimension)) sizeof_int);
  bucle_for dimension (λ fila _,
    bucle_for dimension (λ columna _,
      if negb (inicializar =? 0)
      then guardar matriz (celda dimension fila columna)
             (celda dimension fila columna)
      else guardar matriz (celda dimension fila columna) 0) tt) tt;;
  mret matriz.

(** *** main.c, lines 107-166 *)

Section Programa.

Variable cfg : configuracion.

Definition despues_de_la_barrera (rango_proceso : Z) : MH Z :=
  matriz ← crear_matriz dimension_matriz 1;
  tipo_triang_sup ← generar_tipo_triangular_superior dimension_matriz;
  (if rango_proceso =? PROCESO_ORIGEN cfg then
     printf ("Matriz enviada por el proceso " +:+ pretty (PROCESO_ORIGEN cfg)
             +:+ ":" +:+ nueva_linea)%string;;
     mostrar_matriz matriz dimension_matriz;;
     MPI_Send matriz (NUM_ITERACIONES cfg) tipo_triang_sup
       (PROCESO_DESTINO cfg) (ETIQUETA_MENSAJE cfg)
   else if rango_proceso =? PROCESO_DESTINO cfg then
     matriz_recibida ← crear_matriz dimension_matriz 0;
     MPI_Recv matriz_recibida (NUM_ITERACIONES cfg)
       tipo_triang_sup (PROCESO_ORIGEN cfg) (ETIQUETA_MENSAJE cfg);;
     printf ("Matriz recibida por el proceso " +:+ pretty (PROCESO_DESTINO cfg)
             +:+ ":" +:+ nueva_linea)%string;;
     mostrar_matriz matriz_recibida dimension_matriz;;
     free matriz_recibida
   else mret tt);;
  free matriz;;
  de_base (MPI_Type_free tipo_triang_sup);;
  de_base MPI_Finalize;;
  mret 0.

Definition main : MH Z :=
  rango_proceso ← de_base (antes_de_la_barrera cfg);
  de_base MPI_Barrier;;
  despues_de_la_barrera rango_proceso.

End Programa.

Definition almacen_inicial (b : list mensaje) : almacen :=
  {| base := estado_inicial b; memoria := ∅; proximo := 0 |}.

End Memoria.

(** ** Vocabulary of the statements *)

(** *** Allocators *)

(** The allocator grants the [k]-th request of the process. *)
Definition concedida (e : entorno) (k : nat) : Prop := ∃ g, oraculo e k = Bloque g.

(** Allocators that grant every request, with arbitrary contents. *)
Definition oraculos_de (g : Z → nat → nat → Z) : Z → nat → respuesta_malloc :=
  λ r k, Bloque (g r k).

(** An allocator that grants every request with zeroed blocks, one that
    refuses every request, and a process to run them in. *)
Definition oraculo_generoso : Z → nat → respuesta_malloc := λ _ _, Bloque (λ _, 0).
Definition oraculo_agotado : Z → nat → respuesta_malloc := λ _ _, Nulo.
Definition entorno_ejemplo : entorno := entorno_de 2 oraculo_generoso 0.
Definition entorno_sin_memoria : entorno := entorno_de 2 oraculo_agotado 0.

(** A failure the program reports: it ends through the abort primitive or
    the library's error handler, as opposed to undefined behaviour. *)
Definition error_informado {A} (r : resultado A) : Prop :=
  match r with
  | Abortado _ | ErrorMPI => True
  | _ => False
  end.

(** *** The descriptor *)

(** The descriptor the builder is expected to return for [d]: row [r]
    contributes the block computed by lines 30 and 32, and the type has been
    committed. *)
Definition tipo_triangular (d : Z) : MPI_Datatype :=
  {| bloques := (λ r, (longitud_fila d r, desplazamiento_fila d r)) <$> seqZ 0 d;
     confirmado := true |}.

(** What the builder adds to the trace when both allocations succeed. *)
Definition traza_generar (d : Z) (g1 g2 : nat → Z) : list evento :=
  [ EvMalloc (size_mul (size_t d) sizeof_int)
      (Some (bloque_nuevo (size_mul (size_t d) sizeof_int) g1));
    EvMalloc (size_mul (size_t d) sizeof_int)
      (Some (bloque_nuevo (size_mul (size_t d) sizeof_int) g2));
    EvTypeIndexed (bloques (tipo_triangular d));
    EvTypeCommit;
    EvFree (Some (longitud_fila d <$> seqZ 0 d));
    EvFree (Some (desplazamiento_fila d <$> seqZ 0 d)) ].

(** Row [r] of the upper triangle of a [d × d] row-major matrix, in exact
    arithmetic: (block length, flat offset of the diagonal element). *)
Definition bloque_exacto (d r : Z) : Z * Z := (d - r, r * d + r).

(** The flat offsets of the upper triangle, diagonal included. *)
Definition triangulo_superior (d x : Z) : Prop :=
  ∃ r c, 0 ≤ r < d ∧ r ≤ c < d ∧ x = r * d + c.

(** Offsets covered by the first [m] rows of the exact blocks. *)
Definition filas_exactas (d m : Z) : list Z :=
  concat (desplazamientos_bloque <$> (bloque_exacto d <$> seqZ 0 m)).

(** *** Traces *)

Definition es_transferencia (ev : evento) : bool :=
  match ev with
  | EvSend _ _ _ _ | EvRecv _ _ _ => true
  | _ => false
  end.

Definition es_verificacion (ev : evento) : bool :=
  match ev with
  | EvVerificar _ => true
  | _ => false
  end.

Definition es_barrera (ev : evento) : bool :=
  match ev with
  | EvBarrier => true
  | _ => false
  end.

(** [m] only appends to the trace, and what it appends satisfies [P]. *)
Definition emite {A} (P : evento → Prop) (m : M A) : Prop :=
  ∀ e s, ∃ t, traza (m e s).2 = traza s ++ t ∧ Forall P t.

(** [P] holds of every event that is neither a transfer nor the entry of
    the validator. *)
Definition admite_locales (P : evento → Prop) : Prop :=
  ∀ ev, es_transferencia ev = false → es_verificacion ev = false → P ev.

Definition admite_transferencias (P : evento → Prop) : Prop :=
  ∀ ev, es_transferencia ev = true → P ev.

Definition con_traza (s : estado) (t : list evento) : estado :=
  {| traza := traza s ++ t; n_malloc := n_malloc s; buzon := buzon s |}.

(** The three calls every process starts with. *)
Definition prologo (e : entorno) : list evento :=
  [EvInit; EvCommRank (rango e); EvCommSize (total e)].

(** *** The validator *)

(** The negation of the three checks, and the three messages. *)
Definition configuracion_invalida (cfg : configuracion) (total_procesos : Z) : Prop :=
  NUM_ITERACIONES cfg ≠ 1
  ∨ PROCESO_ORIGEN cfg = PROCESO_DESTINO cfg
  ∨ total_procesos < 2.

Definition mensajes_error : list string :=
  [msg_iteraciones; msg_iguales; msg_procesos].

(** *** The reference scenario *)

(** The two matrices, row-major, and the message between them. *)
Definition matriz_origen : list Z :=
  [0; 1; 2; 3; 4; 5; 6; 7; 8; 9; 10; 11; 12; 13; 14; 15].
Definition matriz_destino : list Z :=
  [0; 1; 2; 3; 0; 5; 6; 7; 0; 0; 10; 11; 0; 0; 0; 15].

Definition carga_triangular : list Z := [0; 1; 2; 3; 5; 6; 7; 10; 11; 15].
Definition mensaje_triangular : mensaje :=
  {| remitente := 0; etiqueta := 10; carga := carga_triangular |}.

(** What [mostrar_matriz] prints for a matrix given by rows. *)
Definition fila_impresa (vs : list Z) : list evento :=
  ((λ v, EvPrintf (formato_3d v)) <$> vs) ++ [EvPrintf nueva_linea].
Definition matriz_impresa (filas : list (list Z)) : list evento :=
  concat (fila_impresa <$> filas) ++ [EvPrintf nueva_linea].

(** Expected traces of the three kinds of process in a valid run of the
    source configuration, [g k] being what the [k]-th fresh block holds. *)
Definition traza_comun (g : nat → nat → Z) : list evento :=
  EvMalloc 64 (Some (bloque_nuevo 64 (g 0%nat)))
  :: traza_generar 4 (g 1%nat) (g 2%nat).

Definition traza_origen (n : Z) (g : nat → nat → Z) : list evento :=
  [EvInit; EvCommRank 0; EvCommSize n; EvVerificar n; EvBarrier]
  ++ traza_comun g
  ++ [EvPrintf ("Matriz enviada por el proceso 0:" +:+ nueva_linea)%string]
  ++ matriz_impresa [[0; 1; 2; 3]; [4; 5; 6; 7]; [8; 9; 10; 11]; [12; 13; 14; 15]]
  ++ [EvSend 1 10 carga_triangular (Some matriz_origen);
      EvFree (Some matriz_origen); EvTypeFree; EvFinalize].

Definition traza_destino (n : Z) (g : nat → nat → Z) : list evento :=
  [EvInit; EvCommRank 1; EvCommSize n; EvBarrier]
  ++ traza_comun g
  ++ [EvMalloc 64 (Some (bloque_nuevo 64 (g 3%nat)));
      EvRecv 0 10 (Some matriz_destino);
      EvPrintf ("Matriz recibida por el proceso 1:" +:+ nueva_linea)%string]
  ++ matriz_impresa [[0; 1; 2; 3]; [0; 5; 6; 7]; [0; 0; 10; 11]; [0; 0; 0; 15]]
  ++ [EvFree (Some matriz_destino); EvFree (Some matriz_origen);
      EvTypeFree; EvFinalize].

Definition traza_espectador (r n : Z) (g : nat → nat → Z) : list evento :=
  [EvInit; EvCommRank r; EvCommSize n; EvBarrier]
  ++ traza_comun g
  ++ [EvFree (Some matriz_origen); EvTypeFree; EvFinalize].

(** *** Matrices of any dimension *)

(** What [crear_matriz] is expected to store at row [r], column [c], in exact
    arithmetic, and the matrix it is expected to return. *)
Definition valor_inicial (d inicializar r c : Z) : Z :=
  if inicializar =? 0 then 0 else r * d + c.

Definition fila_inicial (d inicializar r : Z) : list Z :=
  valor_inicial d inicializar r <$> seqZ 0 d.

Definition matriz_inicial (d inicializar : Z) : list Z :=
  concat (fila_inicial d inicializar <$> seqZ 0 d).

(** The body of the inner loop of [crear_matriz] (lines 72-76). *)
Definition cuerpo_celda (d inicializar fila columna : Z) (matriz : puntero)
    : resultado puntero :=
  if negb (inicializar =? 0)
  then almacenar matriz (celda d fila columna) (celda d fila columna)
  else almacenar matriz (celda d fila columna) 0.

(** The rows of a row-major buffer read as a [d × d] matrix. *)
Definition fila_de (m : list Z) (d r : Z) : list Z :=
  (λ c, m !!! Z.to_nat (r * d + c)) <$> seqZ 0 d.

Definition filas_de (m : list Z) (d : Z) : list (list Z) :=
  fila_de m d <$> seqZ 0 d.

(** *** More classes of events *)

Definition es_aborto (ev : evento) : bool :=
  match ev with
  | EvAbort _ => true
  | _ => false
  end.

(** * Properties *)

(** ** The model on the runs of the specification *)

Example grupo_de_tres :
  ejecutar_grupo config_fuente 3 oraculo_generoso
  = GrupoCompleto
      [ (Hecho 0, {| traza := traza_origen 3 (λ _ _, 0); n_malloc := 3; buzon := [] |});
        (Hecho 0, {| traza := traza_destino 3 (λ _ _, 0); n_malloc := 4; buzon := [] |});
        (Hecho 0, {| traza := traza_espectador 2 3 (λ _ _, 0); n_malloc := 3;
                     buzon := [] |}) ].
Proof. vm_compute. reflexivity. Qed.

Example grupo_de_uno :
  ejecutar_grupo config_fuente 1 oraculo_generoso
  = GrupoAbortado 1
      [[EvInit; EvCommRank 0; EvCommSize 1; EvVerificar 1;
        EvPrintf msg_procesos; EvAbort 1]].
Proof. vm_compute. reflexivity. Qed.

Example origen_igual_a_destino :
  ejecutar_grupo
    {| ETIQUETA_MENSAJE := 10; PROCESO_ORIGEN := 1; PROCESO_DESTINO := 1;
       NUM_ITERACIONES := 1 |} 2 oraculo_generoso
  = GrupoAbortado 1
      [[EvInit; EvCommRank 0; EvCommSize 2];
       [EvInit; EvCommRank 1; EvCommSize 2; EvVerificar 2;
        EvPrintf msg_iguales; EvAbort 1]].
Proof. vm_compute. reflexivity. Qed.

Example dimension_uno :
  (generar_tipo_triangular_superior 1 entorno_ejemplo (estado_inicial [])).1
  = Hecho {| bloques := [(1, 0)]; confirmado := true |}.
Proof. vm_compute. reflexivity. Qed.

Example destino_sin_mensaje :
  (main config_fuente (entorno_de 2 oraculo_generoso 1) (estado_inicial [])).1
  = Bloqueado.
Proof. vm_compute. reflexivity. Qed.

Example impresion_de_una_fila :
  fila_impresa [0; 5; 10; -7]
  = [EvPrintf "  0 "; EvPrintf "  5 "; EvPrintf " 10 "; EvPrintf " -7 ";
     EvPrintf nueva_linea].
Proof. vm_compute. reflexivity. Qed.

(** ** Machine integers *)

Lemma wrap_en_rango z : Int32.en_rango z → Int32.wrap z = z.
Proof.
  unfold Int32.en_rango, Int32.MIN, Int32.MAX, Int32.wrap. intros Hz.
  rewrite Z.mod_small; lia.
Qed.

Lemma wrap_rango z : Int32.en_rango (Int32.wrap z).
Proof.
  unfold Int32.en_rango, Int32.MIN, Int32.MAX, Int32.wrap.
  pose proof (Z.mod_pos_bound (z + 2147483648) 4294967296). lia.
Qed.

(** Whatever the dimension, an entry of the displacement table is an [int]. *)
Lemma desplazamiento_en_rango d r : Int32.en_rango (desplazamiento_fila d r).
Proof. apply wrap_rango. Qed.

(** The largest dimension whose last flat offset [d*d - 1] fits an [int]. *)
Lemma cota_dimension d : 0 ≤ d ≤ 46340 → d * d ≤ 2147395600.
Proof. intros Hd. nia. Qed.

Lemma celda_exacta d r c :
  0 ≤ d ≤ 46340 → 0 ≤ r < d → 0 ≤ c < d → celda d r c = r * d + c.
Proof.
  intros Hd Hr Hc. pose proof (cota_dimension d Hd).
  unfold celda, Int32.add, Int32.mul.
  assert (0 ≤ r * d ≤ (d - 1) * d) by nia.
  rewrite (wrap_en_rango (r * d)) by (unfold Int32.en_rango, Int32.MIN, Int32.MAX; nia).
  apply wrap_en_rango. unfold Int32.en_rango, Int32.MIN, Int32.MAX. nia.
Qed.

Lemma resta_exacta d r : 0 ≤ d ≤ Int32.MAX → 0 ≤ r ≤ d → Int32.sub d r = d - r.
Proof.
  unfold Int32.MAX. intros Hd Hr. apply wrap_en_rango.
  unfold Int32.en_rango, Int32.MIN, Int32.MAX. lia.
Qed.

(** ** Fresh blocks *)

Lemma length_bloque_nuevo d g :
  0 ≤ d ≤ Int32.MAX →
  length (bloque_nuevo (size_mul (size_t d) sizeof_int) g) = Z.to_nat d.
Proof.
  unfold Int32.MAX. intros Hd.
  unfold bloque_nuevo, size_mul, size_t, sizeof_int.
  rewrite length_fmap, length_seq.
  rewrite (Z.mod_small d) by lia. rewrite Z.mod_small by lia.
  rewrite Z.div_mul by lia. done.
Qed.

(** ** The loop of the layout builder *)

Lemma almacenar_medio pre x rest v :
  almacenar (Some (pre ++ x :: rest)) (Z.of_nat (length pre)) v
  = Hecho (Some (pre ++ v :: rest)).
Proof.
  unfold almacenar. rewrite bool_decide_true.
  - rewrite Nat2Z.id.
    replace (length pre) with (length pre + 0)%nat at 1 by lia.
    by rewrite insert_app_r.
  - rewrite length_app. simpl. lia.
Qed.

Lemma cuerpo_bloques_medio d pre1 pre2 x y rest1 rest2 :
  length pre1 = length pre2 →
  cuerpo_bloques d (Z.of_nat (length pre1))
    (Some (pre1 ++ x :: rest1), Some (pre2 ++ y :: rest2))
  = Hecho (Some (pre1 ++ longitud_fila d (Z.of_nat (length pre1)) :: rest1),
           Some (pre2 ++ desplazamiento_fila d (Z.of_nat (length pre1)) :: rest2)).
Proof.
  intros Hpre. unfold cuerpo_bloques. cbn [fst snd].
  rewrite almacenar_medio. cbn [mbind resultado_bind].
  rewrite Hpre at 1. rewrite almacenar_medio. done.
Qed.

Lemma para_cada_bloques d rest1 : ∀ rest2 pre1 pre2,
  length pre1 = length pre2 → length rest1 = length rest2 →
  para_cada (seqZ (Z.of_nat (length pre1)) (Z.of_nat (length rest1)))
    (cuerpo_bloques d) (Some (pre1 ++ rest1), Some (pre2 ++ rest2))
  = Hecho
      (Some (pre1 ++ (longitud_fila d <$>
                        seqZ (Z.of_nat (length pre1)) (Z.of_nat (length rest1)))),
       Some (pre2 ++ (desplazamiento_fila d <$>
                        seqZ (Z.of_nat (length pre1)) (Z.of_nat (length rest1))))).
Proof.
  induction rest1 as [|x rest1 IH]; intros rest2 pre1 pre2 Hpre Hrest.
  - destruct rest2; [|done]. simpl. by rewrite !app_nil_r.
  - destruct rest2 as [|y rest2]; [done|]. simpl in Hrest.
    rewrite seqZ_cons by (simpl; lia).
    replace (Z.pred (Z.of_nat (length (x :: rest1)))) with (Z.of_nat (length rest1))
      by (simpl; lia).
    cbn [para_cada]. rewrite cuerpo_bloques_medio by done.
    cbn [mbind resultado_bind].
    set (v1 := longitud_fila d (Z.of_nat (length pre1))).
    set (v2 := desplazamiento_fila d (Z.of_nat (length pre1))).
    specialize (IH rest2 (pre1 ++ [v1]) (pre2 ++ [v2])).
    rewrite !length_app in IH. simpl in IH.
    replace (Z.of_nat (length pre1 + 1)) with (Z.succ (Z.of_nat (length pre1))) in IH by lia.
    rewrite <- !app_assoc in IH. simpl in IH.
    rewrite IH by lia. rewrite !fmap_cons. done.
Qed.

Lemma llenar_bloques_ok d l1 l2 :
  0 ≤ d → length l1 = Z.to_nat d → length l2 = Z.to_nat d →
  llenar_bloques d (Some l1, Some l2)
  = Hecho (Some (longitud_fila d <$> seqZ 0 d),
           Some (desplazamiento_fila d <$> seqZ 0 d)).
Proof.
  intros Hd H1 H2. unfold llenar_bloques, bucle_for.
  pose proof (para_cada_bloques d l1 l2 [] []) as H. simpl in H.
  rewrite H1, Z2Nat.id in H by lia. apply H; [done | lia].
Qed.

Lemma zip_fmap_mismo {A B C} (f : A → B) (g : A → C) (l : list A) :
  zip (f <$> l) (g <$> l) = (λ x, (f x, g x)) <$> l.
Proof. induction l as [|x l IH]; [done|]. csimpl. by f_equal. Qed.

Lemma longitudes_no_negativas d :
  0 ≤ d ≤ Int32.MAX → existsb (λ l, l <? 0) (longitud_fila d <$> seqZ 0 d) = false.
Proof.
  intros Hd. destruct (existsb _ _) eqn:E; [|done].
  apply existsb_exists in E as (l & Hin & Hl).
  apply list_elem_of_In, list_elem_of_fmap in Hin as (r & -> & Hr).
  apply elem_of_seqZ in Hr. unfold longitud_fila in Hl.
  rewrite resta_exacta in Hl by lia. lia.
Qed.

Lemma leer_tabla_completa (l : list Z) d :
  0 ≤ d → length l = Z.to_nat d → leer_tabla (Some l) d = Hecho l.
Proof.
  intros Hd Hl. unfold leer_tabla. destruct (d =? 0) eqn:E.
  - apply Z.eqb_eq in E. subst d. by destruct l.
  - rewrite bool_decide_true by lia. by rewrite take_ge by lia.
Qed.

(** With both allocations granted the builder returns the descriptor
    [tipo_triangular d], whatever the fresh blocks held. *)
Lemma generar_ok e s d g1 g2 :
  0 ≤ d ≤ Int32.MAX →
  oraculo e (n_malloc s) = Bloque g1 →
  oraculo e (S (n_malloc s)) = Bloque g2 →
  generar_tipo_triangular_superior d e s
  = (Hecho (tipo_triangular d),
     {| traza := traza s ++ traza_generar d g1 g2;
        n_malloc := S (S (n_malloc s));
        buzon := buzon s |}).
Proof.
  intros Hd H1 H2. unfold generar_tipo_triangular_superior.
  unfold mbind at 1, M_bind, malloc at 1. rewrite H1.
  unfold mbind at 1, malloc at 1. cbn [n_malloc traza buzon]. rewrite H2.
  unfold mbind at 1, elevar at 1.
  rewrite llenar_bloques_ok by (try apply length_bloque_nuevo; lia).
  cbn [fst snd]. unfold MPI_Type_indexed.
  replace (d <? 0) with false by (symmetry; apply Z.ltb_ge; lia).
  rewrite !leer_tabla_completa
    by (try lia; rewrite length_fmap, length_seqZ; lia).
  cbv [mbind M_bind elevar]. rewrite longitudes_no_negativas by done.
  rewrite !zip_fmap_mismo.
  cbv [MPI_Type_commit free registrar mret M_ret mbind M_bind
       traza n_malloc buzon bloques].
  unfold tipo_triangular, traza_generar. cbn [bloques].
  f_equal. f_equal. rewrite <- !app_assoc. done.
Qed.

(** ** The blocks in exact arithmetic *)

Lemma desplazamiento_exacto d r :
  0 ≤ d ≤ 46340 → 0 ≤ r < d → desplazamiento_fila d r = r * d + r.
Proof. intros Hd Hr. by apply (celda_exacta d r r). Qed.

Lemma longitud_exacta d r :
  0 ≤ d ≤ 46340 → 0 ≤ r < d → longitud_fila d r = d - r.
Proof. intros Hd Hr. apply resta_exacta; unfold Int32.MAX; lia. Qed.

Lemma bloques_exactos d :
  0 ≤ d ≤ 46340 → bloques (tipo_triangular d) = bloque_exacto d <$> seqZ 0 d.
Proof.
  intros Hd. unfold tipo_triangular. cbn [bloques].
  apply list_fmap_ext. intros i r Hr.
  assert (r ∈ seqZ 0 d) as Hin by (apply list_elem_of_lookup; eauto).
  apply elem_of_seqZ in Hin. unfold bloque_exacto.
  rewrite longitud_exacta, desplazamiento_exacto by lia. done.
Qed.

Lemma lookup_bloque_exacto d r :
  0 ≤ r < d → (bloque_exacto d <$> seqZ 0 d) !! Z.to_nat r = Some (bloque_exacto d r).
Proof.
  intros Hr. rewrite list_lookup_fmap, lookup_seqZ_lt by lia.
  cbn [fmap option_fmap option_map]. do 2 f_equal. lia.
Qed.

(** C2 (as amended). For every dimension from 1 to 46340, and with both table
    allocations granted, the layout builder returns a descriptor of exactly
    [dimension] blocks, block [r] having length [dimension - r] and flat
    offset [r*dimension + r]; for dimension 1 it is the single block of
    length 1 at offset 0. *)
Theorem C2_bloques_por_fila e s d :
  1 ≤ d ≤ 46340 →
  concedida e (n_malloc s) → concedida e (S (n_malloc s)) →
  ∃ tipo s',
    generar_tipo_triangular_superior d e s = (Hecho tipo, s')
    ∧ length (bloques tipo) = Z.to_nat d
    ∧ (∀ r, 0 ≤ r < d → bloques tipo !! Z.to_nat r = Some (d - r, r * d + r))
    ∧ (d = 1 → bloques tipo = [(1, 0)]).
Proof.
  intros Hd [g1 H1] [g2 H2].
  eexists _, _. split.
  { apply (generar_ok e s d g1 g2); [unfold Int32.MAX; lia | done | done]. }
  rewrite bloques_exactos by lia. split; [|split].
  - rewrite length_fmap, length_seqZ. lia.
  - intros r Hr. by rewrite lookup_bloque_exacto.
  - intros ->. reflexivity.
Qed.

Lemma C2_bloques_por_fila_testigo :
  ∃ tipo s',
    generar_tipo_triangular_superior 4 entorno_ejemplo (estado_inicial [])
      = (Hecho tipo, s')
    ∧ length (bloques tipo) = Z.to_nat 4
    ∧ (∀ r, 0 ≤ r < 4 → bloques tipo !! Z.to_nat r = Some (4 - r, r * 4 + r))
    ∧ (4 = 1 → bloques tipo = [(1, 0)]).
Proof.
  apply (C2_bloques_por_fila entorno_ejemplo (estado_inicial []) 4).
  - lia.
  - eexists. reflexivity.
  - eexists. reflexivity.
Defined.

(** C2 as stated fails at dimension 46341: the offset of row 46340 would be
    2147488280, which no [int] holds; the table entry is -2147479016. *)
Lemma C2_contraejemplo :
  ∃ tipo s',
    generar_tipo_triangular_superior 46341 entorno_ejemplo (estado_inicial [])
      = (Hecho tipo, s')
    ∧ bloques tipo !! Z.to_nat 46340 = Some (1, -2147479016)
    ∧ bloques tipo !! Z.to_nat 46340 ≠ Some (46341 - 46340, 46340 * 46341 + 46340).
Proof.
  eexists _, _. split.
  { apply (generar_ok entorno_ejemplo (estado_inicial []) 46341 (λ _, 0) (λ _, 0));
      [unfold Int32.MAX; lia | reflexivity | reflexivity]. }
  assert (bloques (tipo_triangular 46341) !! Z.to_nat 46340 = Some (1, -2147479016)) as H.
  { unfold tipo_triangular. cbn [bloques].
    rewrite list_lookup_fmap, lookup_seqZ_lt by lia.
    cbn [fmap option_fmap option_map].
    rewrite Z.add_0_l, Z2Nat.id by lia. vm_compute. reflexivity. }
  split; [exact H|]. rewrite H. intros Heq. inversion Heq.
Qed.

(** ** Coverage of the type map *)

Lemma elem_filas_exactas d m x :
  x ∈ filas_exactas d m ↔ ∃ r c, 0 ≤ r < m ∧ r ≤ c < d ∧ x = r * d + c.
Proof.
  unfold filas_exactas. rewrite list_elem_of_In, in_concat. split.
  - intros (l & Hl & Hx). apply list_elem_of_In in Hl, Hx.
    apply list_elem_of_fmap in Hl as (b & -> & Hb).
    apply list_elem_of_fmap in Hb as (r & -> & Hr).
    apply elem_of_seqZ in Hr.
    unfold desplazamientos_bloque, bloque_exacto in Hx. cbn [fst snd] in Hx.
    apply list_elem_of_fmap in Hx as (k & -> & Hk). apply elem_of_seqZ in Hk.
    exists r, (r + k). lia.
  - intros (r & c & Hr & Hc & ->).
    exists (desplazamientos_bloque (bloque_exacto d r)).
    split; apply list_elem_of_In.
    + apply list_elem_of_fmap_2, list_elem_of_fmap_2, elem_of_seqZ. lia.
    + unfold desplazamientos_bloque, bloque_exacto. cbn [fst snd].
      apply list_elem_of_fmap. exists (c - r). split; [lia|].
      apply elem_of_seqZ. lia.
Qed.

Lemma filas_exactas_S d (m : nat) :
  filas_exactas d (Z.of_nat (S m))
  = filas_exactas d (Z.of_nat m)
    ++ ((λ k, Z.of_nat m * d + Z.of_nat m + k) <$> seqZ 0 (d - Z.of_nat m)).
Proof.
  unfold filas_exactas. rewrite seqZ_S, !fmap_app, concat_app. f_equal.
  cbn [fmap list_fmap concat]. rewrite app_nil_r. done.
Qed.

Lemma length_filas_exactas d (m : nat) :
  Z.of_nat m ≤ d →
  2 * Z.of_nat (length (filas_exactas d (Z.of_nat m)))
  = Z.of_nat m * (2 * d - Z.of_nat m + 1).
Proof.
  induction m as [|m IH]; intros Hm.
  - reflexivity.
  - rewrite filas_exactas_S, length_app, length_fmap, length_seqZ. nia.
Qed.

Lemma NoDup_filas_exactas d (m : nat) :
  Z.of_nat m ≤ d → NoDup (filas_exactas d (Z.of_nat m)).
Proof.
  induction m as [|m IH]; intros Hm.
  - apply NoDup_nil_2.
  - rewrite filas_exactas_S. apply list.NoDup_app. split; [|split].
    + apply IH. lia.
    + intros x Hx Hb. apply elem_filas_exactas in Hx as (r & c & Hr & Hc & ->).
      apply list_elem_of_fmap in Hb as (k & Hk & Hin). apply elem_of_seqZ in Hin.
      nia.
    + apply NoDup_fmap_2; [|apply NoDup_seqZ]. intros x y Hxy. lia.
Qed.

Lemma mapa_tipo_exacto d :
  0 ≤ d ≤ 46340 → mapa_tipo (tipo_triangular d) = filas_exactas d d.
Proof. intros Hd. unfold mapa_tipo. by rewrite bloques_exactos. Qed.

(** C3 (as amended). For every dimension from 1 to 46340 the offsets covered
    by the blocks of the descriptor are [dimension*(dimension+1)/2] in
    number, pairwise distinct (no two blocks overlap), and are exactly the
    offsets [r*dimension + c] with [0 <= r < dimension], [r <= c < dimension]. *)
Theorem C3_cobertura_exacta e s d :
  1 ≤ d ≤ 46340 →
  concedida e (n_malloc s) → concedida e (S (n_malloc s)) →
  ∃ tipo s',
    generar_tipo_triangular_superior d e s = (Hecho tipo, s')
    ∧ Z.of_nat (length (mapa_tipo tipo)) = (d * (d + 1)) `div` 2
    ∧ NoDup (mapa_tipo tipo)
    ∧ (∀ x, x ∈ mapa_tipo tipo ↔ triangulo_superior d x).
Proof.
  intros Hd [g1 H1] [g2 H2].
  eexists _, _. split.
  { apply (generar_ok e s d g1 g2); [unfold Int32.MAX; lia | done | done]. }
  rewrite mapa_tipo_exacto by lia.
  pose proof (length_filas_exactas d (Z.to_nat d)) as Hlen.
  pose proof (NoDup_filas_exactas d (Z.to_nat d)) as Hnd.
  rewrite Z2Nat.id in Hlen, Hnd by lia.
  split; [|split].
  - apply Z.div_unique_exact; lia.
  - apply Hnd. lia.
  - intros x. apply elem_filas_exactas.
Qed.

Lemma C3_cobertura_exacta_testigo :
  ∃ tipo s',
    generar_tipo_triangular_superior 4 entorno_ejemplo (estado_inicial [])
      = (Hecho tipo, s')
    ∧ Z.of_nat (length (mapa_tipo tipo)) = (4 * (4 + 1)) `div` 2
    ∧ NoDup (mapa_tipo tipo)
    ∧ (∀ x, x ∈ mapa_tipo tipo ↔ triangulo_superior 4 x).
Proof.
  apply (C3_cobertura_exacta entorno_ejemplo (estado_inicial []) 4).
  - lia.
  - eexists. reflexivity.
  - eexists. reflexivity.
Defined.

(** C3 as stated fails at dimension 46341: the last block covers the offset
    -2147479016, which is not an offset of the upper triangle. *)
Lemma C3_contraejemplo :
  ∃ tipo s',
    generar_tipo_triangular_superior 46341 entorno_ejemplo (estado_inicial [])
      = (Hecho tipo, s')
    ∧ -2147479016 ∈ mapa_tipo tipo
    ∧ ¬ triangulo_superior 46341 (-2147479016).
Proof.
  eexists _, _. split.
  { apply (generar_ok entorno_ejemplo (estado_inicial []) 46341 (λ _, 0) (λ _, 0));
      [unfold Int32.MAX; lia | reflexivity | reflexivity]. }
  split.
  - assert ((1, -2147479016) ∈ bloques (tipo_triangular 46341)) as Hb.
    { apply list_elem_of_lookup. exists (Z.to_nat 46340).
      unfold tipo_triangular. cbn [bloques].
      rewrite list_lookup_fmap, lookup_seqZ_lt by lia.
      cbn [fmap option_fmap option_map].
      rewrite Z.add_0_l, Z2Nat.id by lia. vm_compute. reflexivity. }
    unfold mapa_tipo. apply list_elem_of_In, in_concat.
    exists (desplazamientos_bloque (1, -2147479016)). split; apply list_elem_of_In.
    + by apply list_elem_of_fmap_2.
    + vm_compute. apply list_elem_of_here.
  - intros (r & c & Hr & Hc & Hx). nia.
Qed.

(** ** Shape of the descriptor *)

Lemma lookup_bloques_exactos d (i : nat) l o :
  (bloque_exacto d <$> seqZ 0 d) !! i = Some (l, o) →
  Z.of_nat i < d ∧ l = d - Z.of_nat i ∧ o = Z.of_nat i * d + Z.of_nat i.
Proof.
  rewrite list_lookup_fmap. destruct (seqZ 0 d !! i) as [r|] eqn:E; [|done].
  apply lookup_seqZ in E as [-> Hi]. cbn. unfold bloque_exacto.
  intros [= <- <-]. lia.
Qed.

(** C4 (as amended). For every dimension from 1 to 46340: from each row to
    the next the block length drops by exactly 1 and the block offset grows,
    and two builds for the same dimension, whatever the processes, their
    histories and the contents of the fresh tables, return the same
    descriptor. *)
Theorem C4_invariante_descriptor e1 s1 e2 s2 d :
  1 ≤ d ≤ 46340 →
  concedida e1 (n_malloc s1) → concedida e1 (S (n_malloc s1)) →
  concedida e2 (n_malloc s2) → concedida e2 (S (n_malloc s2)) →
  ∃ tipo s1' s2',
    generar_tipo_triangular_superior d e1 s1 = (Hecho tipo, s1')
    ∧ generar_tipo_triangular_superior d e2 s2 = (Hecho tipo, s2')
    ∧ (∀ (r : nat) l1 o1 l2 o2,
         bloques tipo !! r = Some (l1, o1) →
         bloques tipo !! S r = Some (l2, o2) →
         l2 = l1 - 1 ∧ o1 < o2).
Proof.
  intros Hd [g1 H1] [g2 H2] [g3 H3] [g4 H4].
  eexists _, _, _. split; [|split].
  - apply (generar_ok e1 s1 d g1 g2); [unfold Int32.MAX; lia | done | done].
  - apply (generar_ok e2 s2 d g3 g4); [unfold Int32.MAX; lia | done | done].
  - rewrite bloques_exactos by lia. intros r l1 o1 l2 o2 Hr HS.
    apply lookup_bloques_exactos in Hr as (Hr & -> & ->).
    apply lookup_bloques_exactos in HS as (HS & -> & ->). nia.
Qed.

Lemma C4_invariante_descriptor_testigo :
  ∃ tipo s1' s2',
    generar_tipo_triangular_superior 4 entorno_ejemplo (estado_inicial [])
      = (Hecho tipo, s1')
    ∧ generar_tipo_triangular_superior 4
        (entorno_de 3 (λ _ _, Bloque Z.of_nat) 2)
        {| traza := [EvInit]; n_malloc := 5; buzon := [] |}
      = (Hecho tipo, s2')
    ∧ (∀ (r : nat) l1 o1 l2 o2,
         bloques tipo !! r = Some (l1, o1) →
         bloques tipo !! S r = Some (l2, o2) →
         l2 = l1 - 1 ∧ o1 < o2).
Proof.
  apply (C4_invariante_descriptor entorno_ejemplo (estado_inicial [])
           (entorno_de 3 (λ _ _, Bloque Z.of_nat) 2)
           {| traza := [EvInit]; n_malloc := 5; buzon := [] |} 4).
  - lia.
  - eexists. reflexivity.
  - eexists. reflexivity.
  - eexists. reflexivity.
  - eexists. reflexivity.
Defined.

(** C4 as stated fails at dimension 46341: from row 46339 to row 46340 the
    offset falls from 2147441938 to -2147479016. *)
Lemma C4_contraejemplo :
  ∃ tipo s',
    generar_tipo_triangular_superior 46341 entorno_ejemplo (estado_inicial [])
      = (Hecho tipo, s')
    ∧ bloques tipo !! Z.to_nat 46339 = Some (2, 2147441938)
    ∧ bloques tipo !! S (Z.to_nat 46339) = Some (1, -2147479016)
    ∧ ¬ (2147441938 < -2147479016).
Proof.
  eexists _, _. split.
  { apply (generar_ok entorno_ejemplo (estado_inicial []) 46341 (λ _, 0) (λ _, 0));
      [unfold Int32.MAX; lia | reflexivity | reflexivity]. }
  unfold tipo_triangular. cbn [bloques]. split; [|split].
  - rewrite list_lookup_fmap, lookup_seqZ_lt by lia.
    cbn [fmap option_fmap option_map].
    rewrite Z.add_0_l, Z2Nat.id by lia. vm_compute. reflexivity.
  - rewrite list_lookup_fmap, lookup_seqZ_lt by lia.
    cbn [fmap option_fmap option_map].
    replace (0 + Z.of_nat (S (Z.to_nat 46339))) with 46340 by lia.
    vm_compute. reflexivity.
  - lia.
Qed.

(** ** Allocation failure in the builder *)

Lemma llenar_bloques_nulo_1 d p :
  1 ≤ d → llenar_bloques d (None, p) = Indefinido.
Proof.
  intros Hd. unfold llenar_bloques, bucle_for. rewrite seqZ_cons by lia.
  reflexivity.
Qed.

Lemma cuerpo_bloques_nulo_2 d l :
  l ≠ [] → cuerpo_bloques d 0 (Some l, None) = Indefinido.
Proof.
  intros Hl. unfold cuerpo_bloques, almacenar. cbn [fst snd].
  rewrite bool_decide_true; [reflexivity|].
  destruct l; [done|]. cbn [length]. lia.
Qed.

Lemma llenar_bloques_nulo_2 d l :
  1 ≤ d → length l = Z.to_nat d → llenar_bloques d (Some l, None) = Indefinido.
Proof.
  intros Hd Hl. unfold llenar_bloques, bucle_for. rewrite seqZ_cons by lia.
  cbn [para_cada]. rewrite cuerpo_bloques_nulo_2; [reflexivity|].
  intros ->. cbn [length] in Hl. lia.
Qed.

(** C7 (as amended). The builder does not check what [malloc] returns: for a
    dimension of at least 1, when either table allocation is refused the
    first store through the null pointer is undefined behaviour, no error is
    reported, no datatype is created and no descriptor is returned; a
    descriptor is returned only when both allocations were granted. *)
Theorem C7_asignacion_sin_comprobar e s d :
  1 ≤ d ≤ Int32.MAX →
  (oraculo e (n_malloc s) = Nulo ∨ oraculo e (S (n_malloc s)) = Nulo →
   ∃ p1 p2 bytes,
     generar_tipo_triangular_superior d e s
     = (Indefinido,
        {| traza := traza s ++ [EvMalloc bytes p1; EvMalloc bytes p2];
           n_malloc := S (S (n_malloc s));
           buzon := buzon s |}))
  ∧ (∀ tipo s',
       generar_tipo_triangular_superior d e s = (Hecho tipo, s') →
       concedida e (n_malloc s) ∧ concedida e (S (n_malloc s))).
Proof.
  intros Hd.
  assert (∀ p1 p2 bytes,
    (match oraculo e (n_malloc s) with
     | Nulo => None | Bloque g => Some (bloque_nuevo bytes g) end) = p1 →
    (match oraculo e (S (n_malloc s)) with
     | Nulo => None | Bloque g => Some (bloque_nuevo bytes g) end) = p2 →
    bytes = size_mul (size_t d) sizeof_int →
    llenar_bloques d (p1, p2) = Indefinido →
    generar_tipo_triangular_superior d e s
    = (Indefinido,
       {| traza := traza s ++ [EvMalloc bytes p1; EvMalloc bytes p2];
          n_malloc := S (S (n_malloc s));
          buzon := buzon s |})) as Hfalla.
  { intros p1 p2 bytes <- <- -> Hll. unfold generar_tipo_triangular_superior.
    cbv [mbind M_bind malloc elevar]. cbn [traza n_malloc buzon].
    match goal with
    | |- context [llenar_bloques d ?x] =>
        replace (llenar_bloques d x) with (@Indefinido (puntero * puntero))
          by (symmetry; exact Hll)
    end.
    rewrite <- app_assoc. reflexivity. }
  destruct (oraculo e (n_malloc s)) as [|g1] eqn:E1;
    destruct (oraculo e (S (n_malloc s))) as [|g2] eqn:E2.
  - split.
    + intros _. eexists _, _, _. apply Hfalla; try reflexivity.
      apply llenar_bloques_nulo_1. lia.
    + intros tipo s' H. erewrite Hfalla in H; try reflexivity; [done|].
      apply llenar_bloques_nulo_1. lia.
  - split.
    + intros _. eexists _, _, _. apply Hfalla; try reflexivity.
      apply llenar_bloques_nulo_1. lia.
    + intros tipo s' H. erewrite Hfalla in H; try reflexivity; [done|].
      apply llenar_bloques_nulo_1. lia.
  - split.
    + intros _. eexists _, _, _. apply Hfalla; try reflexivity.
      apply llenar_bloques_nulo_2; [lia|]. by apply length_bloque_nuevo; lia.
    + intros tipo s' H. erewrite Hfalla in H; try reflexivity; [done|].
      apply llenar_bloques_nulo_2; [lia|]. by apply length_bloque_nuevo; lia.
  - split.
    + intros [?|?]; done.
    + intros _ _ _. split; [exists g1 | exists g2]; assumption.
Qed.

Lemma C7_asignacion_sin_comprobar_testigo :
  (oraculo entorno_sin_memoria (n_malloc (estado_inicial [])) = Nulo
   ∨ oraculo entorno_sin_memoria (S (n_malloc (estado_inicial []))) = Nulo →
   ∃ p1 p2 bytes,
     generar_tipo_triangular_superior 4 entorno_sin_memoria (estado_inicial [])
     = (Indefinido,
        {| traza := traza (estado_inicial []) ++ [EvMalloc bytes p1; EvMalloc bytes p2];
           n_malloc := S (S (n_malloc (estado_inicial [])));
           buzon := buzon (estado_inicial []) |}))
  ∧ (∀ tipo s',
       generar_tipo_triangular_superior 4 entorno_sin_memoria (estado_inicial [])
         = (Hecho tipo, s') →
       concedida entorno_sin_memoria (n_malloc (estado_inicial []))
       ∧ concedida entorno_sin_memoria (S (n_malloc (estado_inicial [])))).
Proof.
  apply (C7_asignacion_sin_comprobar entorno_sin_memoria (estado_inicial []) 4).
  unfold Int32.MAX. lia.
Defined.

(** C7 as stated fails: with the allocator exhausted the builder ends in
    undefined behaviour, not in a reported error. *)
Lemma C7_contraejemplo :
  (generar_tipo_triangular_superior 4 entorno_sin_memoria (estado_inicial [])).1
    = Indefinido
  ∧ ¬ error_informado
        (generar_tipo_triangular_superior 4 entorno_sin_memoria (estado_inicial [])).1.
Proof. split; [reflexivity | intros H; exact H]. Qed.

(** ** Gather and scatter *)

Lemma mapa_mensaje_1 t : mapa_mensaje 1 t = mapa_tipo t.
Proof.
  unfold mapa_mensaje. change (seqZ 0 1) with [0].
  cbn [fmap list_fmap concat]. rewrite app_nil_r.
  rewrite <- (list_fmap_id (mapa_tipo t)) at 2.
  apply list_fmap_ext. intros i d _. cbn. lia.
Qed.

Lemma leer_todos_length src ds vs :
  leer_todos src ds = Hecho vs → length vs = length ds.
Proof.
  revert vs. induction ds as [|d ds IH]; intros vs H; cbn [leer_todos] in H.
  - by injection H as <-.
  - destruct (cargar src d) as [v| | | |]; try done.
    destruct (leer_todos src ds) as [vs'| | | |]; try done.
    injection H as <-. cbn [length]. f_equal. by apply IH.
Qed.

Lemma cargar_Hecho src d v :
  cargar (Some src) d = Hecho v → 0 ≤ d ∧ src !! Z.to_nat d = Some v.
Proof.
  unfold cargar. case_bool_decide; [|done].
  destruct (src !! Z.to_nat d) as [w|]; [|done]. intros [= ->]. done.
Qed.

(** Scattering what was gathered through the same displacements: the named
    positions take the sender's values, the others keep theirs. *)
Lemma escribir_lo_leido ds : ∀ (buf src vs : list Z),
  leer_todos (Some src) ds = Hecho vs →
  (∀ d, d ∈ ds → 0 ≤ d < Z.of_nat (length buf)) →
  ∃ buf',
    escribir_todos (Some buf) ds vs = Hecho (Some buf')
    ∧ length buf' = length buf
    ∧ ∀ i : nat,
        (Z.of_nat i ∈ ds → buf' !! i = src !! i)
        ∧ (Z.of_nat i ∉ ds → buf' !! i = buf !! i).
Proof.
  induction ds as [|d ds IH]; intros buf src vs Hleer Hcabe.
  - cbn [leer_todos] in Hleer. injection Hleer as <-. exists buf.
    cbn [escribir_todos].
    split; [done|]. split; [done|]. intros i. split; [|done].
    intros Hi. by apply elem_of_nil in Hi.
  - cbn [leer_todos] in Hleer.
    destruct (cargar (Some src) d) as [v| | | |] eqn:Hv; try done.
    destruct (leer_todos (Some src) ds) as [vs'| | | |] eqn:Hvs; try done.
    injection Hleer as <-.
    apply cargar_Hecho in Hv as [Hd Hv].
    assert (0 ≤ d < Z.of_nat (length buf)) as Hdb by (apply Hcabe; left).
    destruct (IH (<[Z.to_nat d := v]> buf) src vs' Hvs) as (buf' & Hesc & Hlen & Hpos).
    { intros d' Hd'. rewrite length_insert. apply Hcabe. by right. }
    exists buf'. cbn [escribir_todos]. unfold almacenar.
    rewrite bool_decide_true by done.
    cbv [mbind resultado_bind]. split; [done|].
    split; [by rewrite Hlen, length_insert|].
    intros i. destruct (Hpos i) as [Hin Hout]. split.
    + intros Hi. destruct (decide (Z.of_nat i ∈ ds)) as [Hds|Hds]; [by apply Hin|].
      apply elem_of_cons in Hi as [Hi|Hi]; [|done].
      rewrite Hout by done. subst d. rewrite Nat2Z.id in *.
      rewrite list_lookup_insert_eq by lia. done.
    + intros Hi. apply not_elem_of_cons in Hi as [Hne Hds].
      rewrite Hout by done. apply list_lookup_insert_ne. lia.
Qed.

(** C8. Whatever the receive buffer holds, when the message at the head of
    the matching queue was gathered by the sender through the same
    descriptor, the receive returns, every offset the descriptor names holds
    the sender's value for that offset, and every other offset keeps its
    value from before the call. *)
Theorem C8_recepcion_marco e s (buf src : list Z) t origen etiq m resto :
  confirmado t = true →
  participante_valido e origen = true →
  extraer origen etiq (buzon s) = Some (m, resto) →
  empaquetar (Some src) 1 t = Hecho (carga m) →
  (∀ d, d ∈ mapa_tipo t → 0 ≤ d < Z.of_nat (length buf)) →
  ∃ buf' s',
    MPI_Recv (Some buf) 1 t origen etiq e s = (Hecho (Some buf'), s')
    ∧ length buf' = length buf
    ∧ ∀ i : nat,
        (Z.of_nat i ∈ mapa_tipo t → buf' !! i = src !! i)
        ∧ (Z.of_nat i ∉ mapa_tipo t → buf' !! i = buf !! i).
Proof.
  intros Hc Hv Hm Hpack Hcabe. unfold empaquetar in Hpack.
  rewrite mapa_mensaje_1 in Hpack.
  destruct (escribir_lo_leido (mapa_tipo t) buf src (carga m) Hpack Hcabe)
    as (buf' & Hesc & Hlen & Hpos).
  exists buf'. eexists. split; [|done].
  unfold MPI_Recv. cbv [mbind M_bind preguntar]. rewrite Hc, Hv. cbn [negb orb Z.ltb Z.compare].
  unfold esperar_mensaje. rewrite Hm. unfold elevar, desempaquetar.
  rewrite mapa_mensaje_1.
  rewrite bool_decide_false by (rewrite (leer_todos_length _ _ _ Hpack); lia).
  rewrite Hesc. reflexivity.
Qed.

(** ** Runs of the source configuration *)

(** Case analysis on a group size of at least 2, far enough for the
    comparisons of the program to compute. *)
Ltac casos_total n :=
  destruct n as [|n|n]; try lia;
  destruct n as [[n|n|]|[n|n|]|]; try lia.

Lemma main_origen n g b :
  2 ≤ n →
  main config_fuente (entorno_de n (oraculos_de g) 0) (estado_inicial b)
  = (Hecho 0, {| traza := traza_origen n (g 0); n_malloc := 3; buzon := b |}).
Proof. intros Hn. casos_total n; vm_compute; reflexivity. Qed.

Lemma main_destino n g :
  2 ≤ n →
  main config_fuente (entorno_de n (oraculos_de g) 1)
    (estado_inicial [mensaje_triangular])
  = (Hecho 0, {| traza := traza_destino n (g 1); n_malloc := 4; buzon := [] |}).
Proof. intros Hn. casos_total n; vm_compute; reflexivity. Qed.

Lemma main_espectador r n g b :
  r ≠ 0 → r ≠ 1 →
  main config_fuente (entorno_de n (oraculos_de g) r) (estado_inicial b)
  = (Hecho 0, {| traza := traza_espectador r n (g r); n_malloc := 3; buzon := b |}).
Proof.
  intros H0 H1. destruct r as [|r|r]; [done| |].
  - destruct r; [| |done]; vm_compute; reflexivity.
  - vm_compute. reflexivity.
Qed.

Lemma omap_ninguno {A B} (f : A → option B) (l : list A) :
  (∀ x, x ∈ l → f x = None) → omap f l = [].
Proof.
  induction l as [|x l IH]; intros H; [done|]. cbn.
  rewrite (H x) by left. apply IH. intros y Hy. apply H. by right.
Qed.

Lemma concat_vacio {A B} (f : A → list B) (l : list A) :
  (∀ x, x ∈ l → f x = []) → concat (f <$> l) = [].
Proof.
  induction l as [|x l IH]; intros H; [done|]. cbn.
  rewrite (H x) by left. apply IH. intros y Hy. apply H. by right.
Qed.

Lemma antes_no_aborta n g r :
  2 ≤ n →
  es_abortado
    (antes_de_la_barrera config_fuente (entorno_de n (oraculos_de g) r)
       (estado_inicial []))
  = None.
Proof.
  intros Hn. destruct r as [|r|r]; [|reflexivity|reflexivity].
  casos_total n; reflexivity.
Qed.

(** Only the source hands a message to the library. *)
Lemma solo_el_origen_envia n g r :
  2 ≤ n → r ≠ 0 →
  enviados r
    (traza (main config_fuente (entorno_de n (oraculos_de g) r)
              (estado_inicial [])).2)
  = [].
Proof.
  intros Hn Hr. destruct (decide (r = 1)) as [->|H1].
  - casos_total n; vm_compute; reflexivity.
  - rewrite main_espectador by done. reflexivity.
Qed.

Lemma envios_del_grupo n g :
  2 ≤ n →
  concat ((λ r, enviados r
             (traza (main config_fuente (entorno_de n (oraculos_de g) r)
                       (estado_inicial [])).2))
          <$> seqZ 0 n)
  = [(1, mensaje_triangular)].
Proof.
  intros Hn. rewrite (seqZ_cons 0 n) by lia.
  rewrite fmap_cons. cbn [concat].
  rewrite concat_vacio.
  2:{ intros r Hr. apply elem_of_seqZ in Hr.
      apply solo_el_origen_envia; lia. }
  rewrite main_origen by done. reflexivity.
Qed.

(** A valid run of the source configuration: every process finishes, the
    destination having found the source's message in its mailbox. *)
Lemma grupo_completo n g :
  2 ≤ n →
  ejecutar_grupo config_fuente n (oraculos_de g)
  = GrupoCompleto
      ((λ r, main config_fuente (entorno_de n (oraculos_de g) r)
               (estado_inicial (if decide (r = 1) then [mensaje_triangular] else [])))
       <$> seqZ 0 n).
Proof.
  intros Hn. unfold ejecutar_grupo. cbv zeta.
  rewrite omap_ninguno.
  2:{ intros x Hx. apply list_elem_of_fmap in Hx as (r & -> & _).
      by apply antes_no_aborta. }
  rewrite envios_del_grupo by done. f_equal.
  apply list_fmap_ext. intros i r _. f_equal. f_equal.
  rewrite filter_cons, filter_nil. cbn [fst].
  destruct (decide (1 = r)), (decide (r = 1)); done || lia.
Qed.

(** C1. In every run of the source configuration (dimension 4, source 0,
    destination 1, tag 10, one transfer) with at least two processes and
    every allocation granted, both processes finish; the source makes the
    single send, its matrix holding [r*4 + c] at row [r], column [c]; the
    destination makes the single receive into its zeroed matrix, which then
    agrees with the source's for [c >= r] and holds 0 for [c < r]: it is
    [[0,1,2,3],[0,5,6,7],[0,0,10,11],[0,0,0,15]]. *)
Theorem C1_transferencia_triangular n g :
  2 ≤ n →
  ∃ fs st0 st1 origen destino vs,
    ejecutar_grupo config_fuente n (oraculos_de g) = GrupoCompleto fs
    ∧ fs !! 0%nat = Some (Hecho 0, st0)
    ∧ fs !! 1%nat = Some (Hecho 0, st1)
    ∧ filter es_transferencia (traza st0) = [EvSend 1 10 vs (Some origen)]
    ∧ filter es_transferencia (traza st1) = [EvRecv 0 10 (Some destino)]
    ∧ (∀ r c, 0 ≤ r < 4 → 0 ≤ c < 4 →
         origen !! Z.to_nat (r * 4 + c) = Some (r * 4 + c))
    ∧ (∀ r c, 0 ≤ r < 4 → 0 ≤ c < 4 →
         destino !! Z.to_nat (r * 4 + c)
         = if bool_decide (r ≤ c) then origen !! Z.to_nat (r * 4 + c) else Some 0)
    ∧ destino = [0; 1; 2; 3; 0; 5; 6; 7; 0; 0; 10; 11; 0; 0; 0; 15].
Proof.
  intros Hn. eexists _, _, _, matriz_origen, matriz_destino, _.
  split; [by apply grupo_completo|].
  split.
  { rewrite list_lookup_fmap, lookup_seqZ_lt by lia. cbn [fmap option_fmap option_map].
    change (0 + Z.of_nat 0) with 0. rewrite decide_False by lia.
    by rewrite main_origen. }
  split.
  { rewrite list_lookup_fmap, lookup_seqZ_lt by lia. cbn [fmap option_fmap option_map].
    change (0 + Z.of_nat 1) with 1. rewrite decide_True by done.
    by rewrite main_destino. }
  split; [reflexivity|]. split; [reflexivity|].
  split; [|split; [|reflexivity]].
  - intros r c Hr Hc.
    assert (r = 0 ∨ r = 1 ∨ r = 2 ∨ r = 3) as Hr' by lia.
    assert (c = 0 ∨ c = 1 ∨ c = 2 ∨ c = 3) as Hc' by lia.
    destruct Hr' as [->|[->|[->| ->]]], Hc' as [->|[->|[->| ->]]]; reflexivity.
  - intros r c Hr Hc.
    assert (r = 0 ∨ r = 1 ∨ r = 2 ∨ r = 3) as Hr' by lia.
    assert (c = 0 ∨ c = 1 ∨ c = 2 ∨ c = 3) as Hc' by lia.
    destruct Hr' as [->|[->|[->| ->]]], Hc' as [->|[->|[->| ->]]]; reflexivity.
Qed.

Lemma C1_transferencia_triangular_testigo :
  ∃ fs st0 st1 origen destino vs,
    ejecutar_grupo config_fuente 3 (oraculos_de (λ r k i, Z.of_nat i + r))
      = GrupoCompleto fs
    ∧ fs !! 0%nat = Some (Hecho 0, st0)
    ∧ fs !! 1%nat = Some (Hecho 0, st1)
    ∧ filter es_transferencia (traza st0) = [EvSend 1 10 vs (Some origen)]
    ∧ filter es_transferencia (traza st1) = [EvRecv 0 10 (Some destino)]
    ∧ (∀ r c, 0 ≤ r < 4 → 0 ≤ c < 4 →
         origen !! Z.to_nat (r * 4 + c) = Some (r * 4 + c))
    ∧ (∀ r c, 0 ≤ r < 4 → 0 ≤ c < 4 →
         destino !! Z.to_nat (r * 4 + c)
         = if bool_decide (r ≤ c) then origen !! Z.to_nat (r * 4 + c) else Some 0)
    ∧ destino = [0; 1; 2; 3; 0; 5; 6; 7; 0; 0; 10; 11; 0; 0; 0; 15].
Proof.
  apply (C1_transferencia_triangular 3 (λ r k i, Z.of_nat i + r)). lia.
Defined.

(** ** What a computation may add to the trace *)

Section Emision.

Variable P : evento → Prop.

Lemma emite_ret {A} (a : A) : emite P (mret a).
Proof. intros e s. exists []. by rewrite app_nil_r. Qed.

Lemma emite_elevar {A} (r : resultado A) : emite P (elevar r).
Proof. intros e s. exists []. by rewrite app_nil_r. Qed.

Lemma emite_preguntar : emite P preguntar.
Proof. intros e s. exists []. by rewrite app_nil_r. Qed.

Lemma emite_esperar origen etiq : emite P (esperar_mensaje origen etiq).
Proof.
  intros e s. exists []. unfold esperar_mensaje.
  destruct (extraer origen etiq (buzon s)) as [[m resto]|]; by rewrite app_nil_r.
Qed.

Lemma emite_registrar ev : P ev → emite P (registrar ev).
Proof. intros H e s. exists [ev]. split; [done|]. by apply Forall_singleton. Qed.

Lemma emite_abort c : P (EvAbort c) → emite P (MPI_Abort c).
Proof. intros H e s. exists [EvAbort c]. split; [done|]. by apply Forall_singleton. Qed.

Lemma emite_malloc bytes : (∀ p, P (EvMalloc bytes p)) → emite P (malloc bytes).
Proof. intros H e s. eexists [_]. split; [done|]. by apply Forall_singleton. Qed.

Lemma emite_bind {A B} (m : M A) (f : A → M B) :
  emite P m → (∀ a, emite P (f a)) → emite P (m ≫= f).
Proof.
  intros Hm Hf e s. destruct (Hm e s) as (t1 & E1 & F1).
  unfold mbind, M_bind. destruct (m e s) as [[a| | | |] s1]; cbn [snd] in *;
    try (exists t1; done).
  destruct (Hf a e s1) as (t2 & E2 & F2). exists (t1 ++ t2). split.
  - by rewrite E2, E1, app_assoc.
  - by apply Forall_app.
Qed.

Lemma emite_para_cada {S} (cuerpo : Z → S → M S) (l : list Z) :
  (∀ i s, emite P (cuerpo i s)) → ∀ s, emite P (para_cada l cuerpo s).
Proof.
  intros Hc. induction l as [|i l IH]; intros s; cbn [para_cada].
  - apply emite_ret.
  - apply emite_bind; [apply Hc | apply IH].
Qed.

End Emision.

(** Decomposes a computation along its binds, loops and conditionals; the
    events it registers are left to [cierre]. *)
Ltac emision cierre :=
  repeat first
    [ apply emite_ret | apply emite_elevar | apply emite_preguntar
    | apply emite_esperar
    | apply emite_registrar; cierre
    | apply emite_abort; cierre
    | apply emite_malloc; intros; cierre
    | apply emite_bind; [|intros]
    | apply emite_para_cada; intros
    | match goal with
      | |- emite _ (if ?b then _ else _) => destruct b
      end ].

Ltac local_por H := apply H; reflexivity.

Section EmisionPrograma.

Variable P : evento → Prop.
Hypothesis HP : admite_locales P.

Lemma emite_crear_matriz d i : emite P (crear_matriz d i).
Proof. unfold crear_matriz. emision ltac:(local_por HP). Qed.

Lemma emite_mostrar_matriz datos d : emite P (mostrar_matriz datos d).
Proof.
  unfold mostrar_matriz, bucle_for, printf. emision ltac:(local_por HP).
Qed.

Lemma emite_generar d : emite P (generar_tipo_triangular_superior d).
Proof.
  unfold generar_tipo_triangular_superior, MPI_Type_indexed, MPI_Type_commit, free.
  emision ltac:(local_por HP).
Qed.

Lemma emite_barrera : emite P MPI_Barrier.
Proof. unfold MPI_Barrier. emision ltac:(local_por HP). Qed.

(** A process that is neither source nor destination adds local events
    only. *)
Lemma emite_despues_espectador cfg r :
  r ≠ PROCESO_ORIGEN cfg → r ≠ PROCESO_DESTINO cfg →
  emite P (despues_de_la_barrera cfg r).
Proof.
  intros Ho Hd. unfold despues_de_la_barrera.
  apply Z.eqb_neq in Ho, Hd. rewrite Ho, Hd.
  apply emite_bind; [apply emite_crear_matriz | intros matriz].
  apply emite_bind; [apply emite_generar | intros tipo].
  unfold free, MPI_Type_free, MPI_Finalize. emision ltac:(local_por HP).
Qed.

Hypothesis HT : admite_transferencias P.

Lemma emite_send buf count t destino etiq : emite P (MPI_Send buf count t destino etiq).
Proof. unfold MPI_Send. emision ltac:(local_por HT). Qed.

Lemma emite_recv buf count t origen etiq : emite P (MPI_Recv buf count t origen etiq).
Proof. unfold MPI_Recv. emision ltac:(local_por HT). Qed.

(** Whatever its rank, a process past the barrier adds local events and
    transfers only: the validator is not entered again. *)
Lemma emite_despues cfg r : emite P (despues_de_la_barrera cfg r).
Proof.
  unfold despues_de_la_barrera.
  apply emite_bind; [apply emite_crear_matriz | intros matriz].
  apply emite_bind; [apply emite_generar | intros tipo].
  apply emite_bind; [|intros; unfold free, MPI_Type_free, MPI_Finalize;
                      emision ltac:(local_por HP)].
  destruct (r =? PROCESO_ORIGEN cfg).
  - apply emite_bind; [unfold printf; emision ltac:(local_por HP) | intros].
    apply emite_bind; [apply emite_mostrar_matriz | intros].
    apply emite_send.
  - destruct (r =? PROCESO_DESTINO cfg); [|apply emite_ret].
    apply emite_bind; [apply emite_crear_matriz | intros].
    apply emite_bind; [apply emite_recv | intros].
    apply emite_bind; [unfold printf; emision ltac:(local_por HP) | intros].
    apply emite_bind; [apply emite_mostrar_matriz | intros].
    unfold free. emision ltac:(local_por HP).
Qed.

End EmisionPrograma.

(** ** The validator and the part of main before the barrier *)

Ltac ejecutar :=
  cbv [mbind M_bind mret M_ret registrar printf elevar preguntar negb
       MPI_Init MPI_Comm_rank MPI_Comm_size MPI_Abort con_traza];
  cbn [traza n_malloc buzon]; rewrite <- ?app_assoc; cbn [app].

Lemma invalida_o_no cfg tp :
  configuracion_invalida cfg tp ∨ ¬ configuracion_invalida cfg tp.
Proof. unfold configuracion_invalida. lia. Qed.

Lemma verificar_valida cfg tp e s :
  ¬ configuracion_invalida cfg tp →
  verificar_configuracion cfg tp e s = (Hecho tt, con_traza s [EvVerificar tp]).
Proof.
  unfold configuracion_invalida. intros H. unfold verificar_configuracion.
  replace (NUM_ITERACIONES cfg =? 1) with true by (symmetry; apply Z.eqb_eq; lia).
  replace (PROCESO_ORIGEN cfg =? PROCESO_DESTINO cfg) with false
    by (symmetry; apply Z.eqb_neq; lia).
  replace (tp <? 2) with false by (symmetry; apply Z.ltb_ge; lia).
  ejecutar. reflexivity.
Qed.

Lemma verificar_invalida cfg tp e s :
  configuracion_invalida cfg tp →
  ∃ msg, msg ∈ mensajes_error
    ∧ verificar_configuracion cfg tp e s
      = (Abortado 1, con_traza s [EvVerificar tp; EvPrintf msg; EvAbort 1]).
Proof.
  unfold configuracion_invalida. intros H. unfold verificar_configuracion.
  destruct (Z.eqb_spec (NUM_ITERACIONES cfg) 1) as [E1|E1].
  - destruct (Z.eqb_spec (PROCESO_ORIGEN cfg) (PROCESO_DESTINO cfg)) as [E2|E2].
    + exists msg_iguales. split; [repeat constructor|]. ejecutar. reflexivity.
    + destruct (Z.ltb_spec tp 2) as [E3|E3]; [|lia].
      exists msg_procesos. split; [repeat constructor|]. ejecutar. reflexivity.
  - exists msg_iteraciones. split; [repeat constructor|]. ejecutar. reflexivity.
Qed.

Lemma antes_prologo cfg e s :
  antes_de_la_barrera cfg e s
  = ((if rango e =? PROCESO_ORIGEN cfg
      then verificar_configuracion cfg (total e)
      else mret tt) ≫= (λ _, mret (rango e))) e (con_traza s (prologo e)).
Proof. unfold antes_de_la_barrera, prologo. ejecutar. reflexivity. Qed.

Lemma antes_distinto cfg e s :
  rango e ≠ PROCESO_ORIGEN cfg →
  antes_de_la_barrera cfg e s = (Hecho (rango e), con_traza s (prologo e)).
Proof.
  intros H. rewrite antes_prologo. apply Z.eqb_neq in H. rewrite H. reflexivity.
Qed.

Lemma antes_valida cfg e s :
  rango e = PROCESO_ORIGEN cfg → ¬ configuracion_invalida cfg (total e) →
  antes_de_la_barrera cfg e s
  = (Hecho (rango e), con_traza s (prologo e ++ [EvVerificar (total e)])).
Proof.
  intros H Hv. rewrite antes_prologo. apply Z.eqb_eq in H. rewrite H.
  unfold mbind, M_bind. rewrite verificar_valida by done.
  unfold prologo. ejecutar. reflexivity.
Qed.

Lemma antes_invalida cfg e s :
  rango e = PROCESO_ORIGEN cfg → configuracion_invalida cfg (total e) →
  ∃ msg, msg ∈ mensajes_error
    ∧ antes_de_la_barrera cfg e s
      = (Abortado 1,
         con_traza s (prologo e ++ [EvVerificar (total e); EvPrintf msg; EvAbort 1])).
Proof.
  intros H Hv. rewrite antes_prologo. apply Z.eqb_eq in H. rewrite H.
  destruct (verificar_invalida cfg (total e) e (con_traza s (prologo e)) Hv)
    as (msg & Hmsg & Heq).
  exists msg. split; [done|]. unfold mbind, M_bind. rewrite Heq.
  unfold prologo. ejecutar. reflexivity.
Qed.

Lemma main_tras_antes cfg e s r s1 :
  antes_de_la_barrera cfg e s = (Hecho r, s1) →
  main cfg e s = (MPI_Barrier ≫= (λ _, despues_de_la_barrera cfg r)) e s1.
Proof.
  intros H. unfold main. unfold mbind at 1. unfold M_bind at 1. rewrite H.
  reflexivity.
Qed.

Lemma main_abortado cfg e s c s1 :
  antes_de_la_barrera cfg e s = (Abortado c, s1) →
  main cfg e s = (Abortado c, s1).
Proof.
  intros H. unfold main. unfold mbind at 1. unfold M_bind at 1. rewrite H.
  reflexivity.
Qed.

(** Before the barrier a process neither enters the barrier nor transfers. *)
Lemma emite_antes cfg :
  emite (λ ev, es_transferencia ev = false ∧ es_barrera ev = false)
    (antes_de_la_barrera cfg).
Proof.
  unfold antes_de_la_barrera, verificar_configuracion, MPI_Init, MPI_Comm_rank,
    MPI_Comm_size, printf.
  emision ltac:(split; reflexivity).
Qed.

Lemma omap_primero {A B} (f : A → option B) (c : B) (l : list A) :
  (∀ x, x ∈ l → f x = None ∨ f x = Some c) →
  (∃ x, x ∈ l ∧ f x = Some c) →
  ∃ resto, omap f l = c :: resto.
Proof.
  induction l as [|x l IH]; intros Hall (y & Hy & Hc).
  - by apply elem_of_nil in Hy.
  - cbn. destruct (Hall x) as [Hx|Hx]; [left| |]; rewrite Hx.
    + apply IH.
      * intros z Hz. apply Hall. by right.
      * apply elem_of_cons in Hy as [->|Hy]; [congruence|]. eauto.
    + eauto.
Qed.

(** An invalid configuration ends the whole group: the source aborts it with
    code 1 and no process gets past the barrier or attempts a transfer. *)
Lemma grupo_abortado cfg n orc :
  configuracion_invalida cfg n → 0 ≤ PROCESO_ORIGEN cfg < n →
  ∃ trazas,
    ejecutar_grupo cfg n orc = GrupoAbortado 1 trazas
    ∧ length trazas = Z.to_nat n
    ∧ Forall (Forall (λ ev, es_transferencia ev = false ∧ es_barrera ev = false))
        trazas.
Proof.
  intros Hinv Ho. unfold ejecutar_grupo. cbv zeta.
  destruct (omap_primero es_abortado 1
              ((λ r, antes_de_la_barrera cfg (entorno_de n orc r) (estado_inicial []))
               <$> seqZ 0 n)) as [resto Hresto].
  - intros x Hx. apply list_elem_of_fmap in Hx as (r & -> & _).
    destruct (decide (r = PROCESO_ORIGEN cfg)) as [Hr|Hr].
    + right.
      destruct (antes_invalida cfg (entorno_de n orc r) (estado_inicial []))
        as (msg & _ & Heq); [done | done |].
      by rewrite Heq.
    + left. by rewrite antes_distinto.
  - eexists. split.
    + apply list_elem_of_fmap_2, elem_of_seqZ. exact (conj (proj1 Ho) (proj2 Ho)).
    + destruct (antes_invalida cfg (entorno_de n orc (PROCESO_ORIGEN cfg))
                  (estado_inicial [])) as (msg & _ & Heq); [done | done |].
      by rewrite Heq.
  - rewrite Hresto. eexists. split; [reflexivity|]. split.
    + rewrite !length_fmap, length_seqZ. done.
    + rewrite !Forall_fmap. apply Forall_true. intros r. cbn.
      destruct (emite_antes cfg (entorno_de n orc r) (estado_inicial []))
        as (t & E & F).
      rewrite E. exact F.
Qed.

(** C5. The validator checks that the repetition count is 1, that source and
    destination differ and that the group has at least 2 processes; when a
    check fails it prints the message of the first failed check and aborts
    the group with code 1, and otherwise it returns silently. So the source
    process of an invalid configuration, in particular of any group of fewer
    than 2 processes, ends with code 1 before the barrier, and in the run of
    the group no process passes the barrier or attempts a transfer. *)
Theorem C5_validacion_aborta cfg tp e s :
  (configuracion_invalida cfg tp →
   ∃ msg, msg ∈ mensajes_error
     ∧ verificar_configuracion cfg tp e s
       = (Abortado 1, con_traza s [EvVerificar tp; EvPrintf msg; EvAbort 1]))
  ∧ (¬ configuracion_invalida cfg tp →
     verificar_configuracion cfg tp e s = (Hecho tt, con_traza s [EvVerificar tp]))
  ∧ (configuracion_invalida cfg (total e) → rango e = PROCESO_ORIGEN cfg →
     ∃ msg, msg ∈ mensajes_error
       ∧ main cfg e s
         = (Abortado 1,
            con_traza s (prologo e ++
                         [EvVerificar (total e); EvPrintf msg; EvAbort 1])))
  ∧ (∀ n orc, configuracion_invalida cfg n → 0 ≤ PROCESO_ORIGEN cfg < n →
     ∃ trazas,
       ejecutar_grupo cfg n orc = GrupoAbortado 1 trazas
       ∧ length trazas = Z.to_nat n
       ∧ Forall (Forall (λ ev, es_transferencia ev = false ∧ es_barrera ev = false))
           trazas)
  ∧ (∀ orc b, tp < 2 →
     ∃ msg,
       main config_fuente (entorno_de tp orc 0) (estado_inicial b)
       = (Abortado 1,
          con_traza (estado_inicial b)
            [EvInit; EvCommRank 0; EvCommSize tp; EvVerificar tp;
             EvPrintf msg; EvAbort 1])).
Proof.
  split; [apply verificar_invalida|].
  split; [apply verificar_valida|].
  split.
  { intros Hinv Hr. destruct (antes_invalida cfg e s Hr Hinv) as (msg & Hmsg & Heq).
    exists msg. split; [done|]. by apply main_abortado. }
  split; [intros n orc; apply grupo_abortado|].
  intros orc b Htp.
  destruct (antes_invalida config_fuente (entorno_de tp orc 0) (estado_inicial b))
    as (msg & _ & Heq).
  - reflexivity.
  - right. right. exact Htp.
  - exists msg. by apply main_abortado.
Qed.

(** ** Order and absence of events in a run *)

Lemma emite_resto_de_main (P : evento → Prop) cfg r :
  admite_locales P → admite_transferencias P →
  emite P (MPI_Barrier ≫= (λ _, despues_de_la_barrera cfg r)).
Proof.
  intros HP HT. apply emite_bind; [by apply emite_barrera | intros _].
  by apply emite_despues.
Qed.

(** For any source rank: the validator is entered once by the source, right
    after the three opening calls, and never by another process. *)
Lemma validacion_una_vez cfg e b :
  (rango e = PROCESO_ORIGEN cfg →
   ∃ post,
     traza (main cfg e (estado_inicial b)).2
     = prologo e ++ EvVerificar (total e) :: post
     ∧ Forall (λ ev, es_verificacion ev = false) post)
  ∧ (rango e ≠ PROCESO_ORIGEN cfg →
     Forall (λ ev, es_verificacion ev = false)
       (traza (main cfg e (estado_inicial b)).2)).
Proof.
  assert (admite_locales (λ ev, es_verificacion ev = false)) as HP
    by (intros ev _ H; exact H).
  assert (admite_transferencias (λ ev, es_verificacion ev = false)) as HT
    by (intros [] H; done).
  split; intros Hr.
  - destruct (invalida_o_no cfg (total e)) as [Hinv|Hval].
    + destruct (antes_invalida cfg e (estado_inicial b) Hr Hinv) as (msg & _ & Heq).
      rewrite (main_abortado _ _ _ _ _ Heq). eexists. split; [reflexivity|].
      repeat constructor.
    + pose proof (antes_valida cfg e (estado_inicial b) Hr Hval) as Heq.
      rewrite (main_tras_antes _ _ _ _ _ Heq).
      destruct (emite_resto_de_main _ cfg (rango e) HP HT e
                  (con_traza (estado_inicial b) (prologo e ++ [EvVerificar (total e)])))
        as (t & E & F).
      exists t. split; [|done]. rewrite E. unfold con_traza. cbn [traza estado_inicial app].
      by rewrite <- app_assoc.
  - pose proof (antes_distinto cfg e (estado_inicial b) Hr) as Heq.
    rewrite (main_tras_antes _ _ _ _ _ Heq).
    destruct (emite_resto_de_main _ cfg (rango e) HP HT e
                (con_traza (estado_inicial b) (prologo e)))
      as (t & E & F).
    rewrite E. apply Forall_app. split; [|done].
    unfold con_traza, prologo. cbn [traza estado_inicial app]. repeat constructor.
Qed.

(** Past the barrier a process neither enters the validator nor enters the
    barrier again. *)
Lemma emite_despues_sin_validar cfg r :
  emite (λ ev, es_verificacion ev = false ∧ es_barrera ev = false)
    (despues_de_la_barrera cfg r).
Proof.
  unfold despues_de_la_barrera, crear_matriz, generar_tipo_triangular_superior,
    mostrar_matriz, MPI_Send, MPI_Recv, MPI_Type_indexed, MPI_Type_commit,
    MPI_Type_free, MPI_Finalize, free, printf, bucle_for.
  emision ltac:(split; reflexivity).
Qed.

(** A process that passes its validation, or has none to pass: its trace is
    what it did before the barrier, the barrier, and the rest; it transfers
    only in the rest. *)
Lemma traza_con_barrera cfg e b :
  rango e ≠ PROCESO_ORIGEN cfg ∨ ¬ configuracion_invalida cfg (total e) →
  ∃ antes resto,
    traza (main cfg e (estado_inicial b)).2 = antes ++ EvBarrier :: resto
    ∧ Forall (λ ev, es_transferencia ev = false ∧ es_barrera ev = false) antes
    ∧ Forall (λ ev, es_verificacion ev = false ∧ es_barrera ev = false) resto.
Proof.
  intros H.
  assert (∃ antes,
            antes_de_la_barrera cfg e (estado_inicial b)
            = (Hecho (rango e), con_traza (estado_inicial b) antes)
            ∧ Forall (λ ev, es_transferencia ev = false ∧ es_barrera ev = false) antes)
    as (antes & Heq & Hantes).
  { destruct (decide (rango e = PROCESO_ORIGEN cfg)) as [Hr|Hr].
    - destruct H as [H|H]; [done|].
      eexists. split; [by apply antes_valida|].
      unfold prologo. cbn [app]. repeat constructor.
    - eexists. split; [by apply antes_distinto|].
      unfold prologo. repeat constructor. }
  rewrite (main_tras_antes _ _ _ _ _ Heq).
  unfold mbind, M_bind, MPI_Barrier, registrar. cbn [traza n_malloc buzon].
  destruct (emite_despues_sin_validar cfg (rango e) e
              {| traza := traza (con_traza (estado_inicial b) antes) ++ [EvBarrier];
                 n_malloc := n_malloc (con_traza (estado_inicial b) antes);
                 buzon := buzon (con_traza (estado_inicial b) antes) |})
    as (resto & E & F).
  exists antes, resto. split; [|done].
  rewrite E. cbn [traza con_traza estado_inicial app]. by rewrite <- app_assoc.
Qed.

(** A source whose validation fails: it ends with code 1 and its trace holds
    neither the barrier nor a transfer. *)
Lemma traza_abortada cfg e b :
  rango e = PROCESO_ORIGEN cfg → configuracion_invalida cfg (total e) →
  (main cfg e (estado_inicial b)).1 = Abortado 1
  ∧ Forall (λ ev, es_transferencia ev = false ∧ es_barrera ev = false)
      (traza (main cfg e (estado_inicial b)).2).
Proof.
  intros Hr Hinv.
  destruct (antes_invalida cfg e (estado_inicial b) Hr Hinv) as (msg & _ & Heq).
  rewrite (main_abortado _ _ _ _ _ Heq). split; [reflexivity|].
  unfold con_traza, prologo. cbn [snd traza estado_inicial app]. repeat constructor.
Qed.

Lemma omap_vacio_inv {A B} (f : A → option B) (l : list A) :
  omap f l = [] → ∀ x, x ∈ l → f x = None.
Proof.
  induction l as [|y l IH]; intros H x Hx; [by apply elem_of_nil in Hx|].
  cbn in H. destruct (f y) eqn:E; [done|].
  apply elem_of_cons in Hx as [->|Hx]; [done | by apply IH].
Qed.

(** The same in the run of a group: when it is aborted no process has
    entered the barrier or a transfer; when it completes every process has
    transferred only after its barrier. *)
Lemma grupo_transfiere_tras_la_barrera cfg n orc :
  match ejecutar_grupo cfg n orc with
  | GrupoAbortado _ trazas =>
      Forall (Forall (λ ev, es_transferencia ev = false ∧ es_barrera ev = false))
        trazas
  | GrupoCompleto fs =>
      Forall (λ x, ∃ antes resto,
                traza x.2 = antes ++ EvBarrier :: resto
                ∧ Forall (λ ev, es_transferencia ev = false ∧ es_barrera ev = false)
                    antes
                ∧ Forall (λ ev, es_verificacion ev = false ∧ es_barrera ev = false)
                    resto) fs
  end.
Proof.
  unfold ejecutar_grupo. cbv zeta.
  destruct (omap es_abortado _) as [|c resto] eqn:E.
  - apply Forall_fmap, Forall_seqZ. intros r Hr. cbn [compose].
    pose proof (omap_vacio_inv _ _ E
                  (antes_de_la_barrera cfg (entorno_de n orc r) (estado_inicial []))
                  (list_elem_of_fmap_2 _ _ r ltac:(by apply elem_of_seqZ))) as Hna.
    apply traza_con_barrera.
    destruct (decide (rango (entorno_de n orc r) = PROCESO_ORIGEN cfg)) as [Hro|Hro];
      [|by left].
    destruct (invalida_o_no cfg (total (entorno_de n orc r))) as [Hinv|Hval];
      [|by right].
    destruct (antes_invalida cfg (entorno_de n orc r) (estado_inicial []) Hro Hinv)
      as (msg & _ & Heq).
    by rewrite Heq in Hna.
  - rewrite !Forall_fmap. apply Forall_true. intros r. cbn.
    destruct (emite_antes cfg (entorno_de n orc r) (estado_inicial []))
      as (t & Et & F).
    rewrite Et. exact F.
Qed.

(** C6. In every run of the source configuration, whatever the group size,
    the allocator and the mailbox: the process of rank 0 enters the
    validator exactly once, after [MPI_Init], [MPI_Comm_rank] and
    [MPI_Comm_size] only; a process of any other rank never enters it. Every
    process, whatever its rank, either is the source ending with code 1 on a
    failed validation, its trace holding neither the barrier nor a send or
    receive, or has a trace made of what it did before the barrier (no send,
    no receive), the barrier, and the rest (no validation, no second
    barrier): a send or a receive is issued only after the barrier of the
    process that issues it, and the validation only before the barrier of
    the source. In the run of the group, an aborted run holds no barrier and
    no transfer in any trace, and in a completed run every trace has the
    shape above. *)
Theorem C6_validacion_antes_de_la_barrera e b :
  (rango e = 0 →
   ∃ post,
     traza (main config_fuente e (estado_inicial b)).2
     = [EvInit; EvCommRank 0; EvCommSize (total e); EvVerificar (total e)] ++ post
     ∧ Forall (λ ev, es_verificacion ev = false) post)
  ∧ (rango e ≠ 0 →
     Forall (λ ev, es_verificacion ev = false)
       (traza (main config_fuente e (estado_inicial b)).2))
  ∧ (((main config_fuente e (estado_inicial b)).1 = Abortado 1
      ∧ rango e = 0
      ∧ Forall (λ ev, es_transferencia ev = false ∧ es_barrera ev = false)
          (traza (main config_fuente e (estado_inicial b)).2))
     ∨ (∃ antes resto,
          traza (main config_fuente e (estado_inicial b)).2
          = antes ++ EvBarrier :: resto
          ∧ Forall (λ ev, es_transferencia ev = false ∧ es_barrera ev = false) antes
          ∧ Forall (λ ev, es_verificacion ev = false ∧ es_barrera ev = false) resto))
  ∧ (∀ n orc,
       match ejecutar_grupo config_fuente n orc with
       | GrupoAbortado _ trazas =>
           Forall (Forall (λ ev, es_transferencia ev = false ∧ es_barrera ev = false))
             trazas
       | GrupoCompleto fs =>
           Forall (λ x, ∃ antes resto,
                     traza x.2 = antes ++ EvBarrier :: resto
                     ∧ Forall (λ ev, es_transferencia ev = false
                                     ∧ es_barrera ev = false) antes
                     ∧ Forall (λ ev, es_verificacion ev = false
                                     ∧ es_barrera ev = false) resto) fs
       end).
Proof.
  destruct (validacion_una_vez config_fuente e b) as [H0 Hn].
  split; [|split; [exact Hn|split]].
  - intros Hr. destruct (H0 Hr) as (post & E & F). exists post. split; [|done].
    rewrite E. unfold prologo. by rewrite Hr.
  - destruct (decide (rango e = 0)) as [Hr|Hr].
    + destruct (invalida_o_no config_fuente (total e)) as [Hinv|Hval].
      * left. destruct (traza_abortada config_fuente e b Hr Hinv) as [Ha Hf]. done.
      * right. apply traza_con_barrera. by right.
    + right. apply traza_con_barrera. by left.
  - intros n orc. apply grupo_transfiere_tras_la_barrera.
Qed.

Lemma main_espectador_concedido e b g0 g1 g2 :
  rango e ≠ 0 → rango e ≠ 1 →
  oraculo e 0%nat = Bloque g0 → oraculo e 1%nat = Bloque g1 →
  oraculo e 2%nat = Bloque g2 →
  main config_fuente e (estado_inicial b)
  = (Hecho 0,
     {| traza := traza_espectador (rango e) (total e)
                   (λ k, match k with O => g0 | S O => g1 | _ => g2 end);
        n_malloc := 3; buzon := b |}).
Proof.
  intros H0 H1 E0 E1 E2.
  pose proof (antes_distinto config_fuente e (estado_inicial b) H0) as Heq.
  rewrite (main_tras_antes _ _ _ _ _ Heq).
  destruct e as [r n o]. cbn [rango total oraculo] in *.
  unfold despues_de_la_barrera. cbn [PROCESO_ORIGEN PROCESO_DESTINO config_fuente].
  apply Z.eqb_neq in H0, H1. rewrite H0, H1.
  vm_compute. rewrite E0. vm_compute. rewrite E1. vm_compute. rewrite E2.
  reflexivity.
Qed.

(** C10. A process whose rank is neither 0 nor 1 never sends or receives,
    whatever the allocator answers; when its three allocations are granted
    it allocates and fills its matrix, builds and commits the descriptor,
    frees the two tables and the matrix, releases the descriptor, finalizes
    and returns 0, having entered neither the validator nor a transfer. *)
Theorem C10_espectador e b :
  rango e ≠ 0 → rango e ≠ 1 →
  Forall (λ ev, es_transferencia ev = false)
    (traza (main config_fuente e (estado_inicial b)).2)
  ∧ (∀ g0 g1 g2,
       oraculo e 0%nat = Bloque g0 → oraculo e 1%nat = Bloque g1 →
       oraculo e 2%nat = Bloque g2 →
       main config_fuente e (estado_inicial b)
       = (Hecho 0,
          {| traza :=
               [EvInit; EvCommRank (rango e); EvCommSize (total e); EvBarrier;
                EvMalloc 64 (Some (bloque_nuevo 64 g0));
                EvMalloc 16 (Some (bloque_nuevo 16 g1));
                EvMalloc 16 (Some (bloque_nuevo 16 g2));
                EvTypeIndexed [(4, 0); (3, 5); (2, 10); (1, 15)];
                EvTypeCommit;
                EvFree (Some [4; 3; 2; 1]);
                EvFree (Some [0; 5; 10; 15]);
                EvFree (Some matriz_origen);
                EvTypeFree; EvFinalize];
             n_malloc := 3; buzon := b |})).
Proof.
  intros H0 H1. split.
  - pose proof (antes_distinto config_fuente e (estado_inicial b) H0) as Heq.
    rewrite (main_tras_antes _ _ _ _ _ Heq).
    assert (admite_locales (λ ev, es_transferencia ev = false)) as HP
      by (intros ev H _; exact H).
    destruct (emite_bind _ MPI_Barrier
                (λ _, despues_de_la_barrera config_fuente (rango e))
                (emite_barrera _ HP)
                (λ _, emite_despues_espectador _ HP config_fuente (rango e) H0 H1)
                e (con_traza (estado_inicial b) (prologo e)))
      as (t & E & F).
    rewrite E. apply Forall_app. split; [|done].
    unfold con_traza, prologo. cbn [traza estado_inicial app]. repeat constructor.
  - intros g0 g1 g2 E0 E1 E2.
    rewrite (main_espectador_concedido e b g0 g1 g2) by done. reflexivity.
Qed.

Lemma C10_espectador_testigo :
  Forall (λ ev, es_transferencia ev = false)
    (traza (main config_fuente (entorno_de 3 oraculo_generoso 2) (estado_inicial [])).2)
  ∧ (∀ g0 g1 g2,
       oraculo (entorno_de 3 oraculo_generoso 2) 0%nat = Bloque g0 →
       oraculo (entorno_de 3 oraculo_generoso 2) 1%nat = Bloque g1 →
       oraculo (entorno_de 3 oraculo_generoso 2) 2%nat = Bloque g2 →
       main config_fuente (entorno_de 3 oraculo_generoso 2) (estado_inicial [])
       = (Hecho 0,
          {| traza :=
               [EvInit; EvCommRank (rango (entorno_de 3 oraculo_generoso 2));
                EvCommSize (total (entorno_de 3 oraculo_generoso 2)); EvBarrier;
                EvMalloc 64 (Some (bloque_nuevo 64 g0));
                EvMalloc 16 (Some (bloque_nuevo 16 g1));
                EvMalloc 16 (Some (bloque_nuevo 16 g2));
                EvTypeIndexed [(4, 0); (3, 5); (2, 10); (1, 15)];
                EvTypeCommit;
                EvFree (Some [4; 3; 2; 1]);
                EvFree (Some [0; 5; 10; 15]);
                EvFree (Some matriz_origen);
                EvTypeFree; EvFinalize];
             n_malloc := 3; buzon := [] |})).
Proof.
  apply (C10_espectador (entorno_de 3 oraculo_generoso 2) []).
  - simpl. lia.
  - simpl. lia.
Defined.

(** ** The source's matrix *)

Lemma crear_matriz_secuencial e s g :
  oraculo e (n_malloc s) = Bloque g →
  crear_matriz dimension_matriz 1 e s
  = (Hecho (Some matriz_origen),
     {| traza := traza s ++ [EvMalloc 64 (Some (bloque_nuevo 64 g))];
        n_malloc := S (n_malloc s);
        buzon := buzon s |}).
Proof.
  intros H. unfold crear_matriz. cbv [mbind M_bind malloc]. rewrite H.
  vm_compute. reflexivity.
Qed.

Lemma crear_matriz_ceros e s g :
  oraculo e (n_malloc s) = Bloque g →
  crear_matriz dimension_matriz 0 e s
  = (Hecho (Some (replicate 16 0)),
     {| traza := traza s ++ [EvMalloc 64 (Some (bloque_nuevo 64 g))];
        n_malloc := S (n_malloc s);
        buzon := buzon s |}).
Proof.
  intros H. unfold crear_matriz. cbv [mbind M_bind malloc]. rewrite H.
  vm_compute. reflexivity.
Qed.

(** *** The send over the store *)

Lemma guardar_marco p k v e s a :
  p ≠ Some a →
  Memoria.memoria (Memoria.guardar p k v e s).2 !! a = Memoria.memoria s !! a.
Proof.
  intros Hp. unfold Memoria.guardar. destruct p as [i|]; [|done].
  destruct (Memoria.memoria s !! i) as [l|]; [|done].
  case_bool_decide; [|done]. cbn [snd Memoria.memoria].
  apply lookup_insert_ne. congruence.
Qed.

(** The copy of the gather stores into the library's buffer only. *)
Lemma copiar_marco buf i ds : ∀ k e s a,
  a ≠ i →
  Memoria.memoria (Memoria.copiar buf (Some i) k ds e s).2 !! a
  = Memoria.memoria s !! a.
Proof.
  induction ds as [|d ds IH]; intros k e s a Ha; [done|].
  cbn [Memoria.copiar]. unfold mbind, Memoria.MH_bind, Memoria.leer.
  destruct (cargar (Memoria.mirar s buf) d) as [v| | | |]; try done.
  pose proof (guardar_marco (Some i) k v e s a ltac:(congruence)) as Hg.
  destruct (Memoria.guardar (Some i) k v e s) as [[[]| | | |] s1]; try done.
  cbn [snd] in Hg. by rewrite IH.
Qed.

(** Whatever the library's send is handed and however it ends, every block
    that existed before the call holds what it held; and when the send
    returns, the address of the library's buffer is free again. *)
Lemma MPI_Send_marco buf count t destino etiq e s r s' :
  Memoria.MPI_Send buf count t destino etiq e s = (r, s') →
  (∀ a, a ≠ Memoria.proximo s → Memoria.memoria s' !! a = Memoria.memoria s !! a)
  ∧ (r = Hecho tt → Memoria.memoria s' !! Memoria.proximo s = None).
Proof.
  unfold Memoria.MPI_Send. unfold mbind at 1. unfold Memoria.MH_bind at 1.
  unfold Memoria.entorno_actual.
  destruct (negb (confirmado t) || (count <? 0) || negb (participante_valido e destino)).
  { unfold Memoria.falla. intros [= <- <-]. split; [done|]. intros H. discriminate H. }
  unfold mbind at 1. unfold Memoria.MH_bind at 1.
  unfold Memoria.reservar_interno, Memoria.asignar.
  set (s1 := {| Memoria.base := Memoria.base s;
                Memoria.memoria := <[Memoria.proximo s :=
                                       replicate (length (mapa_mensaje count t)) 0]>
                                     (Memoria.memoria s);
                Memoria.proximo := S (Memoria.proximo s) |}).
  unfold mbind at 1. unfold Memoria.MH_bind at 1.
  pose proof (copiar_marco buf (Memoria.proximo s) (mapa_mensaje count t) 0 e s1)
    as Hc.
  destruct (Memoria.copiar buf (Some (Memoria.proximo s)) 0
              (mapa_mensaje count t) e s1) as [[[]| | | |] s2];
    cbn [snd] in Hc.
  2-5: intros [= <- <-]; split; [|intros H; discriminate H];
       intros a Ha; rewrite Hc by done; subst s1; cbn [Memoria.memoria];
       by rewrite lookup_insert_ne.
  cbv [mbind Memoria.MH_bind Memoria.contenido Memoria.liberar_interno
       Memoria.de_base registrar].
  cbn [fst snd Memoria.memoria Memoria.base Memoria.proximo].
  intros [= <- <-]. cbn [Memoria.memoria]. split.
  - intros a Ha. rewrite lookup_delete_ne by done. rewrite Hc by done.
    subst s1. cbn [Memoria.memoria]. by rewrite lookup_insert_ne.
  - intros _. apply lookup_delete_eq.
Qed.

Lemma main_origen_en_memoria n g b :
  2 ≤ n →
  Memoria.main config_fuente (entorno_de n (oraculos_de g) 0)
    (Memoria.almacen_inicial b)
  = (Hecho 0,
     {| Memoria.base := {| traza := traza_origen n (g 0); n_malloc := 3; buzon := b |};
        Memoria.memoria := ∅;
        Memoria.proximo := 4 |}).
Proof. intros Hn. casos_total n; vm_compute; reflexivity. Qed.

(** C9. Over the store, where a call can change what a buffer it is handed
    holds. In the source's run the matrix, read from the store, is
    [r*dimension + c] at row [r], column [c] when it is printed just before
    the send, when the send returns and when it is freed just after; the
    run returns 0 and leaves no block in the store. In general, whatever
    buffer, datatype and count the send is handed and however it ends, every
    block that existed before the call holds afterwards what it held before,
    and once the send has returned the store is exactly what it was. *)
Theorem C9_envio_conserva_la_matriz n g b :
  2 ≤ n →
  (∃ s pre post vs,
     Memoria.main config_fuente (entorno_de n (oraculos_de g) 0)
       (Memoria.almacen_inicial b) = (Hecho 0, s)
     ∧ traza (Memoria.base s)
       = pre
         ++ matriz_impresa
              [[0; 1; 2; 3]; [4; 5; 6; 7]; [8; 9; 10; 11]; [12; 13; 14; 15]]
         ++ [EvSend 1 10 vs (Some matriz_origen); EvFree (Some matriz_origen)]
         ++ post
     ∧ Forall (λ ev, es_transferencia ev = false) (pre ++ post)
     ∧ Memoria.memoria s = ∅)
  ∧ (∀ e s buf count t destino etiq a,
       a ≠ Memoria.proximo s →
       Memoria.memoria (Memoria.MPI_Send buf count t destino etiq e s).2 !! a
       = Memoria.memoria s !! a)
  ∧ (∀ e s s' buf count t destino etiq,
       Memoria.memoria s !! Memoria.proximo s = None →
       Memoria.MPI_Send buf count t destino etiq e s = (Hecho tt, s') →
       Memoria.memoria s' = Memoria.memoria s)
  ∧ (∀ r c, 0 ≤ r < dimension_matriz → 0 ≤ c < dimension_matriz →
       matriz_origen !! Z.to_nat (r * dimension_matriz + c)
       = Some (r * dimension_matriz + c)).
Proof.
  intros Hn. split; [|split; [|split]].
  - eexists.
    exists ([EvInit; EvCommRank 0; EvCommSize n; EvVerificar n; EvBarrier]
            ++ traza_comun (g 0)
            ++ [EvPrintf ("Matriz enviada por el proceso 0:" +:+ nueva_linea)%string]),
      [EvTypeFree; EvFinalize], carga_triangular.
    split; [by apply main_origen_en_memoria|].
    split; [cbn [Memoria.base traza]; unfold traza_origen; by rewrite <- !app_assoc|].
    split; [cbn; repeat constructor | reflexivity].
  - intros e s buf count t destino etiq a Ha.
    destruct (Memoria.MPI_Send buf count t destino etiq e s) as [r s'] eqn:Heq.
    by apply (MPI_Send_marco _ _ _ _ _ _ _ _ _ Heq).
  - intros e s s' buf count t destino etiq Hlibre Heq.
    destruct (MPI_Send_marco _ _ _ _ _ _ _ _ _ Heq) as [Hm Hd].
    apply map_eq. intros a. destruct (decide (a = Memoria.proximo s)) as [->|Ha].
    + by rewrite Hd, Hlibre.
    + by apply Hm.
  - unfold dimension_matriz. intros r c Hr Hc.
    assert (r = 0 ∨ r = 1 ∨ r = 2 ∨ r = 3) as Hr' by lia.
    assert (c = 0 ∨ c = 1 ∨ c = 2 ∨ c = 3) as Hc' by lia.
    destruct Hr' as [->|[->|[->| ->]]], Hc' as [->|[->|[->| ->]]]; reflexivity.
Qed.

Lemma C9_envio_conserva_la_matriz_testigo :
  (∃ s pre post vs,
     Memoria.main config_fuente (entorno_de 2 (oraculos_de (λ _ _ _, 7)) 0)
       (Memoria.almacen_inicial []) = (Hecho 0, s)
     ∧ traza (Memoria.base s)
       = pre
         ++ matriz_impresa
              [[0; 1; 2; 3]; [4; 5; 6; 7]; [8; 9; 10; 11]; [12; 13; 14; 15]]
         ++ [EvSend 1 10 vs (Some matriz_origen); EvFree (Some matriz_origen)]
         ++ post
     ∧ Forall (λ ev, es_transferencia ev = false) (pre ++ post)
     ∧ Memoria.memoria s = ∅)
  ∧ (∀ e s buf count t destino etiq a,
       a ≠ Memoria.proximo s →
       Memoria.memoria (Memoria.MPI_Send buf count t destino etiq e s).2 !! a
       = Memoria.memoria s !! a)
  ∧ (∀ e s s' buf count t destino etiq,
       Memoria.memoria s !! Memoria.proximo s = None →
       Memoria.MPI_Send buf count t destino etiq e s = (Hecho tt, s') →
       Memoria.memoria s' = Memoria.memoria s)
  ∧ (∀ r c, 0 ≤ r < dimension_matriz → 0 ≤ c < dimension_matriz →
       matriz_origen !! Z.to_nat (r * dimension_matriz + c)
       = Some (r * dimension_matriz + c)).
Proof.
  apply (C9_envio_conserva_la_matriz 2 (λ _ _ _, 7) []). lia.
Defined.

(** ** A receive into a buffer that is not zeroed *)

Lemma C8_recepcion_marco_testigo :
  ∃ buf' s',
    MPI_Recv (Some (replicate 16 9)) 1 (tipo_triangular 4) 0 10
      (entorno_de 2 oraculo_generoso 1) (estado_inicial [mensaje_triangular])
    = (Hecho (Some buf'), s')
    ∧ length buf' = length (replicate 16 9)
    ∧ ∀ i : nat,
        (Z.of_nat i ∈ mapa_tipo (tipo_triangular 4) → buf' !! i = matriz_origen !! i)
        ∧ (Z.of_nat i ∉ mapa_tipo (tipo_triangular 4) →
           buf' !! i = replicate 16 9 !! i).
Proof.
  apply (C8_recepcion_marco (entorno_de 2 oraculo_generoso 1)
           (estado_inicial [mensaje_triangular]) (replicate 16 9) matriz_origen
           (tipo_triangular 4) 0 10 mensaje_triangular []).
  - reflexivity.
  - reflexivity.
  - reflexivity.
  - reflexivity.
  - intros d Hd. change (mapa_tipo (tipo_triangular 4)) with carga_triangular in Hd.
    unfold carga_triangular in Hd.
    repeat (apply elem_of_cons in Hd as [->|Hd]; [simpl; lia|]).
    by apply elem_of_nil in Hd.
Defined.

(** * Further properties of the program *)

(** ** [crear_matriz] for any dimension *)

Lemma producto_exacto d : 0 ≤ d ≤ 46340 → Int32.mul d d = d * d.
Proof.
  intros Hd. pose proof (cota_dimension d Hd). apply wrap_en_rango.
  unfold Int32.en_rango, Int32.MIN, Int32.MAX. nia.
Qed.

Lemma bytes_matriz d :
  0 ≤ d ≤ 46340 → size_mul (size_t (Int32.mul d d)) sizeof_int = 4 * (d * d).
Proof.
  intros Hd. pose proof (cota_dimension d Hd). rewrite producto_exacto by done.
  unfold size_mul, size_t, sizeof_int.
  rewrite (Z.mod_small (d * d)) by nia. rewrite Z.mod_small by nia. lia.
Qed.

Lemma length_bloque_matriz d g :
  0 ≤ d → length (bloque_nuevo (4 * (d * d)) g) = Z.to_nat (d * d).
Proof.
  intros Hd. unfold bloque_nuevo, sizeof_int. rewrite length_fmap, length_seq.
  rewrite Z.mul_comm, Z.div_mul by lia. done.
Qed.

Lemma cuerpo_celda_medio d ini fila k pre x rest :
  0 ≤ d ≤ 46340 → 0 ≤ fila < d → 0 ≤ k < d →
  Z.of_nat (length pre) = fila * d + k →
  cuerpo_celda d ini fila k (Some (pre ++ x :: rest))
  = Hecho (Some (pre ++ valor_inicial d ini fila k :: rest)).
Proof.
  intros Hd Hf Hk Hpre. unfold cuerpo_celda, valor_inicial.
  rewrite celda_exacta by done. rewrite <- Hpre.
  destruct (ini =? 0); cbn [negb]; by rewrite almacenar_medio.
Qed.

(** One row: the inner loop overwrites [row] and leaves the rest. *)
Lemma para_cada_celdas d ini fila tail row : ∀ pre k,
  0 ≤ d ≤ 46340 → 0 ≤ fila < d → 0 ≤ k →
  k + Z.of_nat (length row) ≤ d →
  Z.of_nat (length pre) = fila * d + k →
  para_cada (seqZ k (Z.of_nat (length row))) (cuerpo_celda d ini fila)
    (Some (pre ++ row ++ tail))
  = Hecho (Some (pre ++ (valor_inicial d ini fila <$> seqZ k (Z.of_nat (length row)))
                     ++ tail)).
Proof.
  induction row as [|x row IH]; intros pre k Hd Hf Hk Hlen Hpre.
  - reflexivity.
  - cbn [length] in Hlen. rewrite seqZ_cons by (cbn [length]; lia).
    replace (Z.pred (Z.of_nat (length (x :: row)))) with (Z.of_nat (length row))
      by (cbn [length]; lia).
    cbn [para_cada]. rewrite <- app_comm_cons.
    rewrite cuerpo_celda_medio by (done || lia).
    cbn [mbind resultado_bind].
    specialize (IH (pre ++ [valor_inicial d ini fila k]) (Z.succ k)).
    rewrite <- !app_assoc in IH. cbn [app] in IH.
    rewrite IH; [by rewrite fmap_cons | done | done | lia | lia |].
    rewrite length_app. cbn [length]. lia.
Qed.

Lemma fila_completa d ini fila pre rest :
  0 ≤ d ≤ 46340 → 0 ≤ fila < d →
  Z.of_nat (length pre) = fila * d → (Z.to_nat d ≤ length rest)%nat →
  bucle_for d (cuerpo_celda d ini fila) (Some (pre ++ rest))
  = Hecho (Some (pre ++ fila_inicial d ini fila ++ drop (Z.to_nat d) rest)).
Proof.
  intros Hd Hf Hpre Hrest. unfold bucle_for, fila_inicial.
  rewrite <- (take_drop (Z.to_nat d) rest) at 1.
  pose proof (para_cada_celdas d ini fila (drop (Z.to_nat d) rest)
                (take (Z.to_nat d) rest) pre 0) as H.
  rewrite length_take, Nat.min_l, Z2Nat.id in H by lia.
  apply H; lia.
Qed.

Lemma length_fila_inicial d ini r : length (fila_inicial d ini r) = Z.to_nat d.
Proof. unfold fila_inicial. by rewrite length_fmap, length_seqZ. Qed.

(** All rows: the outer loop, [j] rows from row [r] on. *)
Lemma para_cada_filas d ini (j : nat) : ∀ r pre rest,
  0 ≤ d ≤ 46340 → 0 ≤ r → r + Z.of_nat j ≤ d →
  Z.of_nat (length pre) = r * d →
  Z.of_nat (length rest) = Z.of_nat j * d →
  para_cada (seqZ r (Z.of_nat j))
    (λ fila matriz, bucle_for d (cuerpo_celda d ini fila) matriz)
    (Some (pre ++ rest))
  = Hecho (Some (pre ++ concat (fila_inicial d ini <$> seqZ r (Z.of_nat j)))).
Proof.
  induction j as [|j IH]; intros r pre rest Hd Hr Hj Hpre Hrest.
  - destruct rest; [reflexivity | cbn [length] in Hrest; lia].
  - rewrite seqZ_cons by lia.
    replace (Z.pred (Z.of_nat (S j))) with (Z.of_nat j) by lia.
    cbn [para_cada]. rewrite fila_completa by (done || nia).
    cbn [mbind resultado_bind]. rewrite app_assoc.
    rewrite IH; [by rewrite fmap_cons, <- app_assoc | done | lia | lia | |].
    + rewrite length_app, length_fila_inicial. nia.
    + rewrite length_drop. nia.
Qed.

Lemma length_matriz_filas {A} (F : Z → list A) d (n : nat) :
  (∀ r, length (F r) = Z.to_nat d) → 0 ≤ d →
  Z.of_nat (length (concat (F <$> seqZ 0 (Z.of_nat n)))) = Z.of_nat n * d.
Proof.
  intros HF Hd. induction n as [|n IH]; [reflexivity|].
  rewrite seqZ_S, fmap_app, concat_app, length_app.
  cbn [fmap list_fmap concat]. rewrite app_nil_r, HF. nia.
Qed.

(** Row-major addressing of a matrix given by its rows. *)
Lemma lookup_matriz_filas {A} (F : Z → list A) d (n : nat) r c :
  (∀ r, length (F r) = Z.to_nat d) →
  0 ≤ r < Z.of_nat n → 0 ≤ c < d →
  concat (F <$> seqZ 0 (Z.of_nat n)) !! Z.to_nat (r * d + c) = F r !! Z.to_nat c.
Proof.
  intros HF. induction n as [|n IH]; intros Hr Hc; [lia|].
  rewrite seqZ_S, fmap_app, concat_app. cbn [fmap list_fmap concat].
  rewrite app_nil_r, Z.add_0_l.
  pose proof (length_matriz_filas F d n HF ltac:(lia)) as Hlen.
  destruct (decide (r = Z.of_nat n)) as [->|Hne].
  - rewrite lookup_app_r by nia. f_equal. nia.
  - rewrite lookup_app_l by nia. apply IH; lia.
Qed.

Lemma lookup_matriz_inicial d ini r c :
  0 ≤ r < d → 0 ≤ c < d →
  matriz_inicial d ini !! Z.to_nat (r * d + c) = Some (valor_inicial d ini r c).
Proof.
  intros Hr Hc. unfold matriz_inicial.
  pose proof (lookup_matriz_filas (fila_inicial d ini) d (Z.to_nat d) r c) as H.
  rewrite Z2Nat.id in H by lia. rewrite H by (try apply length_fila_inicial; lia).
  unfold fila_inicial. rewrite list_lookup_fmap, lookup_seqZ_lt by lia.
  cbn [fmap option_fmap option_map]. do 2 f_equal. lia.
Qed.

Lemma crear_matriz_ok d ini e s g :
  0 ≤ d ≤ 46340 →
  oraculo e (n_malloc s) = Bloque g →
  crear_matriz d ini e s
  = (Hecho (Some (matriz_inicial d ini)),
     {| traza := traza s ++ [EvMalloc (4 * (d * d))
                               (Some (bloque_nuevo (4 * (d * d)) g))];
        n_malloc := S (n_malloc s);
        buzon := buzon s |}).
Proof.
  intros Hd Hg. unfold crear_matriz. cbv [mbind M_bind malloc elevar].
  rewrite Hg, bytes_matriz by done. unfold bucle_for at 1.
  pose proof (para_cada_filas d ini (Z.to_nat d) 0 []
                (bloque_nuevo (4 * (d * d)) g)) as H.
  rewrite Z2Nat.id in H by lia. cbn [app] in H.
  change (λ fila matriz, bucle_for d (cuerpo_celda d ini fila) matriz)
    with (λ (fila : Z) (matriz : puntero),
            bucle_for d
              (λ columna matriz,
                 if negb (ini =? 0)
                 then almacenar matriz (celda d fila columna) (celda d fila columna)
                 else almacenar matriz (celda d fila columna) 0) matriz) in H.
  rewrite H; [reflexivity | done | lia | lia | reflexivity |].
  rewrite length_bloque_matriz by lia. nia.
Qed.

(** X1. For every dimension from 0 to 46340 and a granted allocation,
    [crear_matriz] returns a matrix of [d*d] elements whose element at row
    [r], column [c] is [r*d + c] when the flag is non-zero (whatever its
    value) and 0 when the flag is 0; nothing of what the fresh block held
    survives. It makes one allocation, of [4*d*d] bytes. *)
Theorem X1_crear_matriz_inicializa e s g d ini :
  0 ≤ d ≤ 46340 →
  oraculo e (n_malloc s) = Bloque g →
  ∃ m s',
    crear_matriz d ini e s = (Hecho (Some m), s')
    ∧ Z.of_nat (length m) = d * d
    ∧ (∀ r c, 0 ≤ r < d → 0 ≤ c < d →
         m !! Z.to_nat (r * d + c) = Some (if ini =? 0 then 0 else r * d + c))
    ∧ traza s' = traza s ++ [EvMalloc (4 * (d * d))
                               (Some (bloque_nuevo (4 * (d * d)) g))]
    ∧ n_malloc s' = S (n_malloc s).
Proof.
  intros Hd Hg. eexists _, _. split; [by apply (crear_matriz_ok d ini e s g)|].
  split; [|split; [|done]].
  - unfold matriz_inicial.
    pose proof (length_matriz_filas (fila_inicial d ini) d (Z.to_nat d)
                  (length_fila_inicial d ini) ltac:(lia)) as H.
    rewrite Z2Nat.id in H by lia. exact H.
  - intros r c Hr Hc. by rewrite lookup_matriz_inicial.
Qed.

Lemma X1_crear_matriz_inicializa_testigo :
  ∃ m s',
    crear_matriz 3 (-2) (entorno_de 2 (λ _ _, Bloque Z.of_nat) 0) (estado_inicial [])
      = (Hecho (Some m), s')
    ∧ Z.of_nat (length m) = 3 * 3
    ∧ (∀ r c, 0 ≤ r < 3 → 0 ≤ c < 3 →
         m !! Z.to_nat (r * 3 + c) = Some (if -2 =? 0 then 0 else r * 3 + c))
    ∧ traza s' = traza (estado_inicial [])
                 ++ [EvMalloc (4 * (3 * 3)) (Some (bloque_nuevo (4 * (3 * 3)) Z.of_nat))]
    ∧ n_malloc s' = S (n_malloc (estado_inicial [])).
Proof.
  apply (X1_crear_matriz_inicializa (entorno_de 2 (λ _ _, Bloque Z.of_nat) 0)
           (estado_inicial []) Z.of_nat 3 (-2)).
  - lia.
  - reflexivity.
Defined.

(** X2. [crear_matriz] does not check what [malloc] returns. For a dimension
    of at least 1 a refused allocation makes the first store go through the
    null pointer: undefined behaviour, after the allocation request and
    nothing else. *)
Theorem X2_crear_matriz_sin_memoria e s d ini :
  1 ≤ d →
  oraculo e (n_malloc s) = Nulo →
  crear_matriz d ini e s
  = (Indefinido,
     {| traza := traza s ++ [EvMalloc (size_mul (size_t (Int32.mul d d)) sizeof_int) None];
        n_malloc := S (n_malloc s);
        buzon := buzon s |}).
Proof.
  intros Hd Hn. unfold crear_matriz. cbv [mbind M_bind malloc elevar].
  rewrite Hn. unfold bucle_for. rewrite !(seqZ_cons 0 d) by lia.
  cbn [para_cada].
  unfold almacenar. destruct (negb (ini =? 0)); reflexivity.
Qed.

Lemma X2_crear_matriz_sin_memoria_testigo :
  crear_matriz 4 1 entorno_sin_memoria (estado_inicial [])
  = (Indefinido,
     {| traza := traza (estado_inicial [])
                 ++ [EvMalloc (size_mul (size_t (Int32.mul 4 4)) sizeof_int) None];
        n_malloc := S (n_malloc (estado_inicial []));
        buzon := buzon (estado_inicial []) |}).
Proof.
  apply (X2_crear_matriz_sin_memoria entorno_sin_memoria (estado_inicial []) 4 1).
  - lia.
  - reflexivity.
Defined.

(** ** The descriptor applied to matrices of any dimension *)

Lemma leer_todos_ok (src : list Z) ds :
  (∀ x, x ∈ ds → 0 ≤ x < Z.of_nat (length src)) →
  ∃ vs, leer_todos (Some src) ds = Hecho vs.
Proof.
  induction ds as [|x ds IH]; intros H; [by eexists|].
  destruct IH as [vs Hvs]; [intros y Hy; apply H; by right|].
  assert (0 ≤ x < Z.of_nat (length src)) as Hx by (apply H; left).
  destruct (lookup_lt_is_Some_2 src (Z.to_nat x)) as [v Hv]; [lia|].
  exists (v :: vs). cbn [leer_todos]. unfold cargar.
  rewrite bool_decide_true by lia. rewrite Hv, Hvs. reflexivity.
Qed.

Lemma fila_y_columna d r c r' c' :
  0 ≤ c < d → 0 ≤ c' < d → r * d + c = r' * d + c' → r = r' ∧ c = c'.
Proof. intros Hc Hc' H. assert (r = r') by nia. subst. lia. Qed.

Lemma en_el_triangulo d r c :
  0 ≤ r < d → 0 ≤ c < d → (r * d + c ∈ filas_exactas d d ↔ r ≤ c).
Proof.
  intros Hr Hc. rewrite elem_filas_exactas. split.
  - intros (r' & c' & Hr' & Hc' & Heq).
    apply fila_y_columna in Heq as [-> ->]; lia.
  - intros Hle. exists r, c. lia.
Qed.

(** X3. The descriptor the builder returns for a dimension from 1 to 46340,
    applied to any two matrices of that dimension: gathering from the first
    succeeds and yields [d*(d+1)/2] values; scattering them into the second
    succeeds and gives a matrix of the same size that holds the first
    matrix's element at every position on or above the diagonal and the
    second's own element at every position below it. *)
Theorem X3_triangulo_de_cualquier_matriz e s d (src dst : list Z) :
  1 ≤ d ≤ 46340 →
  concedida e (n_malloc s) → concedida e (S (n_malloc s)) →
  Z.of_nat (length src) = d * d → Z.of_nat (length dst) = d * d →
  ∃ tipo s' vs dst',
    generar_tipo_triangular_superior d e s = (Hecho tipo, s')
    ∧ empaquetar (Some src) 1 tipo = Hecho vs
    ∧ Z.of_nat (length vs) = (d * (d + 1)) `div` 2
    ∧ desempaquetar (Some dst) 1 tipo vs = Hecho (Some dst')
    ∧ length dst' = length dst
    ∧ (∀ r c, 0 ≤ r < d → 0 ≤ c < d →
         dst' !! Z.to_nat (r * d + c)
         = if bool_decide (r ≤ c) then src !! Z.to_nat (r * d + c)
           else dst !! Z.to_nat (r * d + c)).
Proof.
  intros Hd [g1 H1] [g2 H2] Hsrc Hdst.
  assert (∀ (m : list Z) x, Z.of_nat (length m) = d * d →
            x ∈ filas_exactas d d → 0 ≤ x < Z.of_nat (length m)) as Hcabe.
  { intros m x Hm Hx. apply elem_filas_exactas in Hx as (r & c & Hr & Hc & ->). nia. }
  destruct (leer_todos_ok src (filas_exactas d d)) as [vs Hvs];
    [intros x; by apply Hcabe|].
  destruct (escribir_lo_leido (filas_exactas d d) dst src vs Hvs)
    as (dst' & Hesc & Hlen & Hpos); [intros x; by apply Hcabe|].
  pose proof (length_filas_exactas d (Z.to_nat d)) as Hn.
  rewrite Z2Nat.id in Hn by lia.
  pose proof (leer_todos_length _ _ _ Hvs) as Hlvs.
  exists (tipo_triangular d). eexists. exists vs, dst'.
  split; [apply (generar_ok e s d g1 g2); [unfold Int32.MAX; lia | done | done]|].
  unfold empaquetar, desempaquetar.
  rewrite mapa_mensaje_1, mapa_tipo_exacto by lia.
  split; [done|]. split; [apply Z.div_unique_exact; lia|].
  split; [by rewrite bool_decide_false by lia|].
  split; [done|].
  intros r c Hr Hc. destruct (Hpos (Z.to_nat (r * d + c))) as [Hin Hout].
  rewrite Z2Nat.id in Hin, Hout by nia.
  case_bool_decide.
  - apply Hin. by apply en_el_triangulo.
  - apply Hout. by rewrite en_el_triangulo.
Qed.

Lemma X3_triangulo_de_cualquier_matriz_testigo :
  ∃ tipo s' vs dst',
    generar_tipo_triangular_superior 2 entorno_ejemplo (estado_inicial [])
      = (Hecho tipo, s')
    ∧ empaquetar (Some [7; 8; 9; 10]) 1 tipo = Hecho vs
    ∧ Z.of_nat (length vs) = (2 * (2 + 1)) `div` 2
    ∧ desempaquetar (Some [-1; -2; -3; -4]) 1 tipo vs = Hecho (Some dst')
    ∧ length dst' = length [-1; -2; -3; -4]
    ∧ (∀ r c, 0 ≤ r < 2 → 0 ≤ c < 2 →
         dst' !! Z.to_nat (r * 2 + c)
         = if bool_decide (r ≤ c) then [7; 8; 9; 10] !! Z.to_nat (r * 2 + c)
           else [-1; -2; -3; -4] !! Z.to_nat (r * 2 + c)).
Proof.
  apply (X3_triangulo_de_cualquier_matriz entorno_ejemplo (estado_inicial []) 2
           [7; 8; 9; 10] [-1; -2; -3; -4]).
  - lia.
  - eexists. reflexivity.
  - eexists. reflexivity.
  - reflexivity.
  - reflexivity.
Defined.

(** ** The builder outside the range of the exact offsets *)

Lemma length_desplazamientos_bloque b :
  length (desplazamientos_bloque b) = Z.to_nat (fst b).
Proof. unfold desplazamientos_bloque. by rewrite length_fmap, length_seqZ. Qed.

Lemma length_mapa_filas d (m : nat) :
  0 ≤ d ≤ Int32.MAX → Z.of_nat m ≤ d →
  2 * Z.of_nat (length (concat (desplazamientos_bloque <$>
          ((λ r, (longitud_fila d r, desplazamiento_fila d r))
             <$> seqZ 0 (Z.of_nat m)))))
  = Z.of_nat m * (2 * d - Z.of_nat m + 1).
Proof.
  intros Hd. induction m as [|m IH]; intros Hm; [reflexivity|].
  rewrite seqZ_S, !fmap_app, concat_app, length_app.
  cbn [fmap list_fmap concat]. rewrite app_nil_r, length_desplazamientos_bloque.
  cbn [fst]. unfold longitud_fila at 2. rewrite resta_exacta by lia. nia.
Qed.

(** X4. For every dimension an [int] can hold, from 0 to 2147483647, with
    both allocations granted the builder returns a committed descriptor of
    [d] blocks whose lengths are [d - r] and whose type map names
    [d*(d+1)/2] elements; every stored offset is an [int]. Beyond 46340
    only the offsets are affected by the overflow. *)
Theorem X4_longitudes_para_todo_int e s d :
  0 ≤ d ≤ Int32.MAX →
  concedida e (n_malloc s) → concedida e (S (n_malloc s)) →
  ∃ tipo s',
    generar_tipo_triangular_superior d e s = (Hecho tipo, s')
    ∧ confirmado tipo = true
    ∧ Z.of_nat (length (bloques tipo)) = d
    ∧ (∀ r, 0 ≤ r < d →
         ∃ o, bloques tipo !! Z.to_nat r = Some (d - r, o) ∧ Int32.en_rango o)
    ∧ Z.of_nat (length (mapa_tipo tipo)) = (d * (d + 1)) `div` 2.
Proof.
  intros Hd [g1 H1] [g2 H2]. eexists _, _.
  split; [by apply (generar_ok e s d g1 g2)|].
  split; [reflexivity|]. unfold mapa_tipo, tipo_triangular. cbn [bloques].
  split; [rewrite length_fmap, length_seqZ; unfold Int32.MAX in Hd; lia|].
  split.
  - intros r Hr. exists (desplazamiento_fila d r). split.
    + rewrite list_lookup_fmap, lookup_seqZ_lt by lia.
      cbn [fmap option_fmap option_map]. rewrite Z.add_0_l, Z2Nat.id by lia.
      unfold longitud_fila. by rewrite resta_exacta by lia.
    + apply desplazamiento_en_rango.
  - pose proof (length_mapa_filas d (Z.to_nat d) Hd) as H.
    rewrite Z2Nat.id in H by lia. apply Z.div_unique_exact; lia.
Qed.

Lemma X4_longitudes_para_todo_int_testigo :
  ∃ tipo s',
    generar_tipo_triangular_superior 46341 entorno_ejemplo (estado_inicial [])
      = (Hecho tipo, s')
    ∧ confirmado tipo = true
    ∧ Z.of_nat (length (bloques tipo)) = 46341
    ∧ (∀ r, 0 ≤ r < 46341 →
         ∃ o, bloques tipo !! Z.to_nat r = Some (46341 - r, o) ∧ Int32.en_rango o)
    ∧ Z.of_nat (length (mapa_tipo tipo)) = (46341 * (46341 + 1)) `div` 2.
Proof.
  apply (X4_longitudes_para_todo_int entorno_ejemplo (estado_inicial []) 46341).
  - unfold Int32.MAX. lia.
  - eexists. reflexivity.
  - eexists. reflexivity.
Defined.

(** X5. A dimension that is not positive never touches the tables, so the
    answers of the allocator do not matter: for 0 the builder returns the
    committed descriptor with no block, and for a negative dimension the
    library refuses the negative count and no descriptor is returned. *)
Theorem X5_dimension_no_positiva e s d :
  (d = 0 →
   ∃ s', generar_tipo_triangular_superior d e s
         = (Hecho {| bloques := []; confirmado := true |}, s'))
  ∧ (d < 0 →
     ∃ s', generar_tipo_triangular_superior d e s = (ErrorMPI, s')
           ∧ Forall (λ ev, ∃ bytes p, ev = EvMalloc bytes p)
               (drop (length (traza s)) (traza s'))).
Proof.
  split.
  - intros ->. unfold generar_tipo_triangular_superior.
    cbv [mbind M_bind malloc elevar].
    destruct (oraculo e (n_malloc s)), (oraculo e (S (n_malloc s)));
      eexists; reflexivity.
  - intros Hd. unfold generar_tipo_triangular_superior.
    cbv [mbind M_bind malloc elevar]. cbn [n_malloc traza buzon].
    unfold llenar_bloques, bucle_for. rewrite seqZ_nil by lia.
    cbn [para_cada mret resultado_ret fst snd]. unfold MPI_Type_indexed.
    replace (d <? 0) with true by (symmetry; apply Z.ltb_lt; lia).
    unfold elevar. eexists. split; [reflexivity|].
    cbn [traza]. rewrite <- app_assoc, drop_app_length.
    repeat constructor; eauto.
Qed.

(** ** [mostrar_matriz] for any matrix *)

Lemma con_traza_nil s : con_traza s [] = s.
Proof. destruct s. unfold con_traza. cbn. by rewrite app_nil_r. Qed.

Lemma con_traza_app s a b : con_traza (con_traza s a) b = con_traza s (a ++ b).
Proof. unfold con_traza. cbn. by rewrite app_assoc. Qed.

(** A loop whose body only appends to the trace appends the bodies' events
    in order. *)
Lemma para_cada_traza (out : Z → list evento) (cuerpo : Z → unit → M unit) e l :
  (∀ i, i ∈ l → ∀ s, cuerpo i tt e s = (Hecho tt, con_traza s (out i))) →
  ∀ s, para_cada l cuerpo tt e s = (Hecho tt, con_traza s (concat (out <$> l))).
Proof.
  induction l as [|i l IH]; intros H s.
  - cbn. by rewrite con_traza_nil.
  - cbn [para_cada]. unfold mbind, M_bind. rewrite H by left.
    rewrite IH by (intros j Hj; apply H; by right).
    by rewrite con_traza_app.
Qed.

Lemma cargar_total (m : list Z) i :
  0 ≤ i < Z.of_nat (length m) → cargar (Some m) i = Hecho (m !!! Z.to_nat i).
Proof.
  intros Hi. unfold cargar. rewrite bool_decide_true by lia.
  by rewrite list_lookup_lookup_total_lt by lia.
Qed.

Lemma concat_unitarios {A B} (f : A → B) (l : list A) :
  concat ((λ x, [f x]) <$> l) = f <$> l.
Proof. induction l as [|x l IH]; [done|]. cbn. by rewrite IH. Qed.

Lemma length_fila_impresa vs : length (fila_impresa vs) = S (length vs).
Proof. unfold fila_impresa. rewrite length_app, length_fmap. cbn. lia. Qed.

(** X6. For a dimension from 0 to 46340 and a buffer of at least [d*d]
    elements, [mostrar_matriz] returns after printing, row by row, the [d]
    elements of the row each through ["%3d "] and then a newline, and one
    more newline after the last row: [d*(d+1) + 1] calls of [printf] in
    all, and no other event. *)
Theorem X6_mostrar_matriz_imprime_por_filas e s (m : list Z) d :
  0 ≤ d ≤ 46340 → d * d ≤ Z.of_nat (length m) →
  mostrar_matriz (Some m) d e s
  = (Hecho tt, con_traza s (matriz_impresa (filas_de m d)))
  ∧ Z.of_nat (length (matriz_impresa (filas_de m d))) = d * (d + 1) + 1
  ∧ Forall (λ ev, ∃ texto, ev = EvPrintf texto) (matriz_impresa (filas_de m d)).
Proof.
  intros Hd Hm. split; [|split].
  - unfold mostrar_matriz, bucle_for. unfold mbind at 1. unfold M_bind at 1.
    rewrite (para_cada_traza (λ r, fila_impresa (fila_de m d r))).
    + unfold printf, registrar, matriz_impresa, filas_de, con_traza. cbn [traza n_malloc buzon].
      rewrite <- list_fmap_compose, <- app_assoc. reflexivity.
    + intros r Hr s0. apply elem_of_seqZ in Hr.
      unfold mbind at 1. unfold M_bind at 1.
      rewrite (para_cada_traza
                 (λ c, [EvPrintf (formato_3d (m !!! Z.to_nat (r * d + c)))])).
      * unfold printf, registrar, fila_impresa, fila_de, con_traza.
        cbn [traza n_malloc buzon].
        rewrite concat_unitarios, <- list_fmap_compose, <- app_assoc. reflexivity.
      * intros c Hc s1. apply elem_of_seqZ in Hc.
        unfold mbind, M_bind, elevar.
        rewrite celda_exacta, cargar_total by (lia || nia). reflexivity.
  - unfold matriz_impresa, filas_de. rewrite length_app, <- list_fmap_compose.
    pose proof (length_matriz_filas (fila_impresa ∘ fila_de m d) (d + 1) (Z.to_nat d)) as H.
    rewrite Z2Nat.id in H by lia. cbn [length]. rewrite Nat2Z.inj_add, H; [lia| |lia].
    intros r. cbn. rewrite length_fila_impresa. unfold fila_de.
    rewrite length_fmap, length_seqZ. lia.
  - unfold matriz_impresa. apply Forall_app. split; [|repeat constructor; eauto].
    apply Forall_concat, Forall_fmap, Forall_true. intros vs. cbn.
    unfold fila_impresa. apply Forall_app. split; [|repeat constructor; eauto].
    apply Forall_fmap, Forall_true. intros v. cbn. eauto.
Qed.

Lemma X6_mostrar_matriz_imprime_por_filas_testigo :
  mostrar_matriz (Some [5; -6; 7; 800; 9]) 2 entorno_ejemplo (estado_inicial [])
  = (Hecho tt,
     con_traza (estado_inicial []) (matriz_impresa (filas_de [5; -6; 7; 800; 9] 2)))
  ∧ Z.of_nat (length (matriz_impresa (filas_de [5; -6; 7; 800; 9] 2))) = 2 * (2 + 1) + 1
  ∧ Forall (λ ev, ∃ texto, ev = EvPrintf texto)
      (matriz_impresa (filas_de [5; -6; 7; 800; 9] 2)).
Proof.
  apply (X6_mostrar_matriz_imprime_por_filas entorno_ejemplo (estado_inicial [])
           [5; -6; 7; 800; 9] 2).
  - lia.
  - simpl. lia.
Defined.

Example filas_de_una_matriz :
  filas_de [5; -6; 7; 800; 9] 2 = [[5; -6]; [7; 800]].
Proof. reflexivity. Qed.

(** X7. For every value from -99 to 999 the conversion ["%3d "] gives
    exactly 4 characters, so the columns of the printed matrix line up. *)
Theorem X7_formato_de_ancho_fijo v :
  -99 ≤ v ≤ 999 → String.length (formato_3d v) = 4%nat.
Proof.
  intros Hv.
  assert (forallb (λ v, Nat.eqb (String.length (formato_3d v)) 4)
            (seqZ (-99) 1099) = true) as H by (vm_compute; reflexivity).
  rewrite forallb_forall in H. apply Nat.eqb_eq, H.
  apply list_elem_of_In, elem_of_seqZ. lia.
Qed.

Lemma X7_formato_de_ancho_fijo_testigo : String.length (formato_3d (-42)) = 4%nat.
Proof. apply (X7_formato_de_ancho_fijo (-42)). lia. Defined.

(** ** The validator reports the first failed check *)

(** X8. The validator tests the repetition count first, then the two roles,
    then the group size, and reports only the first check that fails: one
    message, three different texts, then the abort with code 1. *)
Theorem X8_primer_fallo_informado cfg tp e s :
  (NUM_ITERACIONES cfg ≠ 1 →
   verificar_configuracion cfg tp e s
   = (Abortado 1, con_traza s [EvVerificar tp; EvPrintf msg_iteraciones; EvAbort 1]))
  ∧ (NUM_ITERACIONES cfg = 1 → PROCESO_ORIGEN cfg = PROCESO_DESTINO cfg →
     verificar_configuracion cfg tp e s
     = (Abortado 1, con_traza s [EvVerificar tp; EvPrintf msg_iguales; EvAbort 1]))
  ∧ (NUM_ITERACIONES cfg = 1 → PROCESO_ORIGEN cfg ≠ PROCESO_DESTINO cfg → tp < 2 →
     verificar_configuracion cfg tp e s
     = (Abortado 1, con_traza s [EvVerificar tp; EvPrintf msg_procesos; EvAbort 1]))
  ∧ msg_iteraciones ≠ msg_iguales
  ∧ msg_iteraciones ≠ msg_procesos
  ∧ msg_iguales ≠ msg_procesos.
Proof.
  split; [|split; [|split]].
  - intros H1. unfold verificar_configuracion.
    apply Z.eqb_neq in H1. rewrite H1. ejecutar. reflexivity.
  - intros H1 H2. unfold verificar_configuracion.
    apply Z.eqb_eq in H1, H2. rewrite H1, H2. ejecutar. reflexivity.
  - intros H1 H2 H3. unfold verificar_configuracion.
    apply Z.eqb_eq in H1. apply Z.eqb_neq in H2. apply Z.ltb_lt in H3.
    rewrite H1, H2, H3. ejecutar. reflexivity.
  - split; [|split]; intros H; discriminate H.
Qed.

(** ** The valid run as a whole *)

Lemma main_destino_en_memoria n g :
  2 ≤ n →
  Memoria.main config_fuente (entorno_de n (oraculos_de g) 1)
    (Memoria.almacen_inicial [mensaje_triangular])
  = (Hecho 0,
     {| Memoria.base := {| traza := traza_destino n (g 1); n_malloc := 4; buzon := [] |};
        Memoria.memoria := ∅;
        Memoria.proximo := 4 |}).
Proof. intros Hn. casos_total n; vm_compute; reflexivity. Qed.

Lemma main_espectador_en_memoria r n g b :
  r ≠ 0 → r ≠ 1 →
  Memoria.main config_fuente (entorno_de n (oraculos_de g) r)
    (Memoria.almacen_inicial b)
  = (Hecho 0,
     {| Memoria.base := {| traza := traza_espectador r n (g r); n_malloc := 3;
                           buzon := b |};
        Memoria.memoria := ∅;
        Memoria.proximo := 3 |}).
Proof.
  intros H0 H1. destruct r as [|r|r]; [done| |].
  - destruct r; [| |done]; vm_compute; reflexivity.
  - vm_compute. reflexivity.
Qed.

(** Freeing an address that holds no block is undefined behaviour: a run
    that returns has freed no block twice. *)
Lemma free_dos_veces e s a :
  Memoria.memoria s !! a = None → Memoria.free (Some a) e s = (Indefinido, s).
Proof. intros H. unfold Memoria.free. by rewrite H. Qed.

(** X9. In every run of the source configuration with at least two
    processes and every allocation granted, each of the [n] processes
    returns 0 with an empty mailbox, and in the whole group there is one
    send and one receive, those of ranks 0 and 1. Run over the store, with
    the mailbox the group gives it, each process returns 0 with the same
    trace and leaves the store empty: every block it obtained has been
    freed, and none twice, a second [free] of a block being undefined
    behaviour in the store. *)
Theorem X9_todos_terminan_sin_fugas n g :
  2 ≤ n →
  (∃ fs,
     ejecutar_grupo config_fuente n (oraculos_de g) = GrupoCompleto fs
     ∧ Z.of_nat (length fs) = n
     ∧ Forall (λ x, x.1 = Hecho 0 ∧ buzon x.2 = []) fs
     ∧ concat ((λ x, filter es_transferencia (traza x.2)) <$> fs)
       = [EvSend 1 10 carga_triangular (Some matriz_origen);
          EvRecv 0 10 (Some matriz_destino)])
  ∧ (∀ r, 0 ≤ r < n →
       ∃ s,
         Memoria.main config_fuente (entorno_de n (oraculos_de g) r)
           (Memoria.almacen_inicial
              (if decide (r = 1) then [mensaje_triangular] else []))
         = (Hecho 0, s)
         ∧ Memoria.memoria s = ∅
         ∧ main config_fuente (entorno_de n (oraculos_de g) r)
             (estado_inicial (if decide (r = 1) then [mensaje_triangular] else []))
           = (Hecho 0, Memoria.base s))
  ∧ (∀ e s a, Memoria.memoria s !! a = None →
       Memoria.free (Some a) e s = (Indefinido, s)).
Proof.
  intros Hn. split; [|split].
  - eexists. split; [by apply grupo_completo|].
    split; [rewrite length_fmap, length_seqZ; lia|]. split.
    + apply Forall_fmap, Forall_seqZ. intros r Hr. cbn [compose].
      destruct (decide (r = 1)) as [->|H1].
      * rewrite main_destino by done. repeat split.
      * destruct (decide (r = 0)) as [->|H0].
        -- rewrite main_origen by done. repeat split.
        -- rewrite main_espectador by done. repeat split.
    + rewrite <- list_fmap_compose.
      rewrite (seqZ_cons 0 n), (seqZ_cons (Z.succ 0) (Z.pred n)) by lia.
      rewrite !fmap_cons. cbn [concat compose].
      change (Z.succ 0) with 1.
      destruct (decide (0 = 1)) as [?|_]; [lia|].
      destruct (decide (1 = 1)) as [_|?]; [|lia].
      rewrite main_origen, main_destino by done.
      rewrite concat_vacio; [reflexivity|].
      intros r Hr. apply elem_of_seqZ in Hr. unfold compose.
      destruct (decide (r = 1)) as [?|_]; [lia|].
      rewrite main_espectador by lia. reflexivity.
  - intros r Hr. destruct (decide (r = 1)) as [->|H1].
    + eexists. split; [by apply main_destino_en_memoria|].
      split; [reflexivity|]. by rewrite main_destino.
    + destruct (decide (r = 0)) as [->|H0].
      * eexists. split; [by apply main_origen_en_memoria|].
        split; [reflexivity|]. by rewrite main_origen.
      * eexists. split; [by apply main_espectador_en_memoria|].
        split; [reflexivity|]. by rewrite main_espectador.
  - apply free_dos_veces.
Qed.

Lemma X9_todos_terminan_sin_fugas_testigo :
  (∃ fs,
     ejecutar_grupo config_fuente 5 (oraculos_de (λ r k i, r + Z.of_nat (k + i)))
       = GrupoCompleto fs
     ∧ Z.of_nat (length fs) = 5
     ∧ Forall (λ x, x.1 = Hecho 0 ∧ buzon x.2 = []) fs
     ∧ concat ((λ x, filter es_transferencia (traza x.2)) <$> fs)
       = [EvSend 1 10 carga_triangular (Some matriz_origen);
          EvRecv 0 10 (Some matriz_destino)])
  ∧ (∀ r, 0 ≤ r < 5 →
       ∃ s,
         Memoria.main config_fuente
           (entorno_de 5 (oraculos_de (λ r k i, r + Z.of_nat (k + i))) r)
           (Memoria.almacen_inicial
              (if decide (r = 1) then [mensaje_triangular] else []))
         = (Hecho 0, s)
         ∧ Memoria.memoria s = ∅
         ∧ main config_fuente
             (entorno_de 5 (oraculos_de (λ r k i, r + Z.of_nat (k + i))) r)
             (estado_inicial (if decide (r = 1) then [mensaje_triangular] else []))
           = (Hecho 0, Memoria.base s))
  ∧ (∀ e s a, Memoria.memoria s !! a = None →
       Memoria.free (Some a) e s = (Indefinido, s)).
Proof.
  apply (X9_todos_terminan_sin_fugas 5 (λ r k i, r + Z.of_nat (k + i))). lia.
Defined.

(** ** Where the abort primitive can be called *)

Lemma emite_despues_sin_aborto cfg r :
  emite (λ ev, es_aborto ev = false) (despues_de_la_barrera cfg r).
Proof.
  unfold despues_de_la_barrera, crear_matriz, generar_tipo_triangular_superior,
    mostrar_matriz, MPI_Send, MPI_Recv, MPI_Type_indexed, MPI_Type_commit,
    MPI_Type_free, MPI_Finalize, free, printf, bucle_for.
  emision ltac:(reflexivity).
Qed.

(** X10. Whatever the configuration, the group size, the allocator and the
    mailbox: past the barrier no process of any rank calls the abort
    primitive, and a process that is not the source never calls it at all.
    An abort can only come from the source, before the barrier. *)
Theorem X10_aborto_solo_antes_de_la_barrera cfg e b :
  (∀ r s, ∃ t,
     traza (despues_de_la_barrera cfg r e s).2 = traza s ++ t
     ∧ Forall (λ ev, es_aborto ev = false) t)
  ∧ (rango e ≠ PROCESO_ORIGEN cfg →
     Forall (λ ev, es_aborto ev = false)
       (traza (main cfg e (estado_inicial b)).2)).
Proof.
  split.
  - intros r s. apply emite_despues_sin_aborto.
  - intros Hr.
    pose proof (antes_distinto cfg e (estado_inicial b) Hr) as Heq.
    rewrite (main_tras_antes _ _ _ _ _ Heq).
    destruct (emite_bind (λ ev, es_aborto ev = false) MPI_Barrier
                (λ _, despues_de_la_barrera cfg (rango e))
                (emite_registrar _ EvBarrier eq_refl)
                (λ _, emite_despues_sin_aborto cfg (rango e))
                e (con_traza (estado_inicial b) (prologo e)))
      as (t & E & F).
    rewrite E. apply Forall_app. split; [|done].
    unfold con_traza, prologo. cbn [traza estado_inicial app]. repeat constructor.
Qed.

(** ** A process whose allocation is refused *)

(** X11. [main] does not check its allocations either. In a group of at
    least two processes, a process of any rank for which one of the first
    three allocations (the matrix and the two tables) is refused, and the
    destination for which the fourth (the receive matrix) is refused, ends
    in undefined behaviour without having sent or received anything. *)
Theorem X11_sin_memoria_no_hay_transferencia e b :
  2 ≤ total e →
  oraculo e 0%nat = Nulo ∨ oraculo e 1%nat = Nulo ∨ oraculo e 2%nat = Nulo
  ∨ (rango e = 1 ∧ oraculo e 3%nat = Nulo) →
  (main config_fuente e (estado_inicial b)).1 = Indefinido
  ∧ Forall (λ ev, es_transferencia ev = false)
      (traza (main config_fuente e (estado_inicial b)).2).
Proof.
  intros Hn H. destruct e as [r n o]. cbn [rango total oraculo] in *.
  destruct r as [|r|r].
  - casos_total n.
    all: lazy -[formato_3d extraer].
    all: destruct (o 0%nat) eqn:E0; [split; [reflexivity | repeat constructor]|].
    all: destruct (o 1%nat) eqn:E1; [split; [reflexivity | repeat constructor]|].
    all: destruct (o 2%nat) eqn:E2; [split; [reflexivity | repeat constructor]|].
    all: exfalso; destruct H as [H|[H|[H|[H _]]]]; discriminate H.
  - destruct r as [r|r|].
    all: lazy -[formato_3d extraer].
    all: destruct (o 0%nat) eqn:E0; [split; [reflexivity | repeat constructor]|].
    all: destruct (o 1%nat) eqn:E1; [split; [reflexivity | repeat constructor]|].
    all: destruct (o 2%nat) eqn:E2; [split; [reflexivity | repeat constructor]|].
    1,2: exfalso; destruct H as [H|[H|[H|[H _]]]]; discriminate H.
    destruct (o 3%nat) eqn:E3; [split; [reflexivity | repeat constructor]|].
    exfalso; destruct H as [H|[H|[H|[_ H]]]]; discriminate H.
  - lazy -[formato_3d extraer].
    destruct (o 0%nat) eqn:E0; [split; [reflexivity | repeat constructor]|].
    destruct (o 1%nat) eqn:E1; [split; [reflexivity | repeat constructor]|].
    destruct (o 2%nat) eqn:E2; [split; [reflexivity | repeat constructor]|].
    exfalso; destruct H as [H|[H|[H|[H _]]]]; discriminate H.
Qed.

Lemma X11_sin_memoria_no_hay_transferencia_testigo :
  (main config_fuente
     (entorno_de 2 (λ _ k, match k with 3%nat => Nulo | _ => Bloque (λ _, 0) end) 1)
     (estado_inicial [mensaje_triangular])).1 = Indefinido
  ∧ Forall (λ ev, es_transferencia ev = false)
      (traza
         (main config_fuente
            (entorno_de 2 (λ _ k, match k with 3%nat => Nulo | _ => Bloque (λ _, 0) end) 1)
            (estado_inicial [mensaje_triangular])).2).
Proof.
  apply (X11_sin_memoria_no_hay_transferencia
           (entorno_de 2 (λ _ k, match k with 3%nat => Nulo | _ => Bloque (λ _, 0) end) 1)
           [mensaje_triangular]).
  - simpl. lia.
  - right. right. right. split; reflexivity.
Defined.

(** ** The destination and its mailbox *)

Lemma extraer_ninguno o q b :
  (∀ m, m ∈ b → remitente m ≠ o ∨ etiqueta m ≠ q) → extraer o q b = None.
Proof.
  induction b as [|m b IH]; intros H; [done|]. cbn [extraer].
  replace ((remitente m =? o) && (etiqueta m =? q)) with false.
  - rewrite IH; [done|]. intros m' Hm'. apply H. by right.
  - symmetry. apply andb_false_iff. destruct (H m) as [Hr|Hq]; [left| |].
    + left. by apply Z.eqb_neq.
    + right. by apply Z.eqb_neq.
Qed.

Lemma extraer_primero o q pre m0 post :
  (∀ m, m ∈ pre → remitente m ≠ o ∨ etiqueta m ≠ q) →
  remitente m0 = o → etiqueta m0 = q →
  extraer o q (pre ++ m0 :: post) = Some (m0, pre ++ post).
Proof.
  intros H Hr Hq. induction pre as [|m pre IH].
  - cbn [app extraer]. rewrite Hr, Hq, !Z.eqb_refl. done.
  - cbn [app extraer].
    replace ((remitente m =? o) && (etiqueta m =? q)) with false.
    + rewrite IH; [done|]. intros m' Hm'. apply H. by right.
    + symmetry. apply andb_false_iff. destruct (H m) as [Hr'|Hq']; [left| |].
      * left. by apply Z.eqb_neq.
      * right. by apply Z.eqb_neq.
Qed.

(** X12. The destination takes the first queued message that comes from
    rank 0 with tag 10, whatever other messages precede or follow it, and
    these stay queued in their order. Whatever ten values it carries, they
    land in row order on and above the diagonal of the zeroed matrix; the
    process prints that matrix and nothing else of it, frees both matrices,
    releases the datatype and returns 0. *)
Theorem X12_destino_recibe_cualquier_carga n g pre post v0 v1 v2 v3 v4 v5 v6 v7 v8 v9 :
  2 ≤ n →
  (∀ m, m ∈ pre → remitente m ≠ 0 ∨ etiqueta m ≠ 10) →
  main config_fuente (entorno_de n (oraculos_de g) 1)
    (estado_inicial
       (pre ++ {| remitente := 0; etiqueta := 10;
                  carga := [v0; v1; v2; v3; v4; v5; v6; v7; v8; v9] |} :: post))
  = (Hecho 0,
     {| traza :=
          [EvInit; EvCommRank 1; EvCommSize n; EvBarrier]
          ++ traza_comun (g 1)
          ++ [EvMalloc 64 (Some (bloque_nuevo 64 (g 1 3%nat)));
              EvRecv 0 10
                (Some [v0; v1; v2; v3; 0; v4; v5; v6; 0; 0; v7; v8; 0; 0; 0; v9]);
              EvPrintf ("Matriz recibida por el proceso 1:" +:+ nueva_linea)%string]
          ++ matriz_impresa
               [[v0; v1; v2; v3]; [0; v4; v5; v6]; [0; 0; v7; v8]; [0; 0; 0; v9]]
          ++ [EvFree (Some [v0; v1; v2; v3; 0; v4; v5; v6; 0; 0; v7; v8; 0; 0; 0; v9]);
              EvFree (Some matriz_origen); EvTypeFree; EvFinalize];
        n_malloc := 4;
        buzon := pre ++ post |}).
Proof.
  intros Hn Hpre. casos_total n.
  all: lazy -[formato_3d extraer app].
  all: rewrite extraer_primero by done.
  all: lazy -[formato_3d]; reflexivity.
Qed.

Lemma X12_destino_recibe_cualquier_carga_testigo :
  main config_fuente (entorno_de 2 (oraculos_de (λ _ _ _, 5)) 1)
    (estado_inicial
       ([{| remitente := 0; etiqueta := 9; carga := [1] |}]
        ++ {| remitente := 0; etiqueta := 10;
              carga := [-1; -2; -3; -4; -5; -6; -7; -8; -9; -10] |}
        :: [{| remitente := 0; etiqueta := 10; carga := [] |}]))
  = (Hecho 0,
     {| traza :=
          [EvInit; EvCommRank 1; EvCommSize 2; EvBarrier]
          ++ traza_comun (λ _ _, 5)
          ++ [EvMalloc 64 (Some (bloque_nuevo 64 (λ _, 5)));
              EvRecv 0 10
                (Some [-1; -2; -3; -4; 0; -5; -6; -7; 0; 0; -8; -9; 0; 0; 0; -10]);
              EvPrintf ("Matriz recibida por el proceso 1:" +:+ nueva_linea)%string]
          ++ matriz_impresa
               [[-1; -2; -3; -4]; [0; -5; -6; -7]; [0; 0; -8; -9]; [0; 0; 0; -10]]
          ++ [EvFree (Some [-1; -2; -3; -4; 0; -5; -6; -7; 0; 0; -8; -9; 0; 0; 0; -10]);
              EvFree (Some matriz_origen); EvTypeFree; EvFinalize];
        n_malloc := 4;
        buzon := [{| remitente := 0; etiqueta := 9; carga := [1] |}]
                 ++ [{| remitente := 0; etiqueta := 10; carga := [] |}] |}).
Proof.
  apply (X12_destino_recibe_cualquier_carga 2 (λ _ _ _, 5)
           [{| remitente := 0; etiqueta := 9; carga := [1] |}]
           [{| remitente := 0; etiqueta := 10; carga := [] |}]
           (-1) (-2) (-3) (-4) (-5) (-6) (-7) (-8) (-9) (-10)).
  - lia.
  - intros m Hm. apply list_elem_of_singleton in Hm as ->. right. simpl. lia.
Defined.

(** X13. While no queued message comes from rank 0 with tag 10 the
    destination stays blocked in its receive: it has allocated its two
    matrices and built the descriptor, and has neither printed nor freed
    anything; its mailbox is untouched. *)
Theorem X13_destino_espera_su_mensaje n g b :
  2 ≤ n →
  (∀ m, m ∈ b → remitente m ≠ 0 ∨ etiqueta m ≠ 10) →
  main config_fuente (entorno_de n (oraculos_de g) 1) (estado_inicial b)
  = (Bloqueado,
     {| traza :=
          [EvInit; EvCommRank 1; EvCommSize n; EvBarrier]
          ++ traza_comun (g 1)
          ++ [EvMalloc 64 (Some (bloque_nuevo 64 (g 1 3%nat)))];
        n_malloc := 4;
        buzon := b |}).
Proof.
  intros Hn Hb. casos_total n.
  all: lazy -[formato_3d extraer app].
  all: rewrite extraer_ninguno by done.
  all: lazy -[formato_3d]; reflexivity.
Qed.

Lemma X13_destino_espera_su_mensaje_testigo :
  main config_fuente (entorno_de 3 (oraculos_de (λ _ _ _, 5)) 1)
    (estado_inicial
       [{| remitente := 2; etiqueta := 10; carga := carga_triangular |};
        {| remitente := 0; etiqueta := 11; carga := carga_triangular |}])
  = (Bloqueado,
     {| traza :=
          [EvInit; EvCommRank 1; EvCommSize 3; EvBarrier]
          ++ traza_comun (λ _ _, 5)
          ++ [EvMalloc 64 (Some (bloque_nuevo 64 (λ _, 5)))];
        n_malloc := 4;
        buzon := [{| remitente := 2; etiqueta := 10; carga := carga_triangular |};
                  {| remitente := 0; etiqueta := 11; carga := carga_triangular |}] |}).
Proof.
  apply (X13_destino_espera_su_mensaje 3 (λ _ _ _, 5)
           [{| remitente := 2; etiqueta := 10; carga := carga_triangular |};
            {| remitente := 0; etiqueta := 11; carga := carga_triangular |}]).
  - lia.
  - intros m Hm. apply elem_of_cons in Hm as [->|Hm].
    + left. simpl. lia.
    + apply list_elem_of_singleton in Hm as ->. right. simpl. lia.
Defined.

(** ** The calls of the builder, in order *)

(** X14. With both allocations granted and a dimension from 0 to
    2147483647 the builder makes exactly these calls, in this order: two
    allocations of [4*d] bytes, [MPI_Type_indexed] on the blocks of the
    descriptor it returns, [MPI_Type_commit], and the release of the two
    tables, which then hold the lengths and the offsets of those blocks. It
    leaves the mailbox alone and no block allocated. *)
Theorem X14_llamadas_del_constructor e s d g1 g2 :
  0 ≤ d ≤ Int32.MAX →
  oraculo e (n_malloc s) = Bloque g1 →
  oraculo e (S (n_malloc s)) = Bloque g2 →
  ∃ tipo,
    generar_tipo_triangular_superior d e s
    = (Hecho tipo,
       {| traza := traza s ++
            [EvMalloc (4 * d) (Some (bloque_nuevo (4 * d) g1));
             EvMalloc (4 * d) (Some (bloque_nuevo (4 * d) g2));
             EvTypeIndexed (bloques tipo);
             EvTypeCommit;
             EvFree (Some (fst <$> bloques tipo));
             EvFree (Some (snd <$> bloques tipo))];
          n_malloc := S (S (n_malloc s));
          buzon := buzon s |})
    ∧ confirmado tipo = true.
Proof.
  intros Hd H1 H2. exists (tipo_triangular d).
  split; [|reflexivity].
  rewrite (generar_ok e s d g1 g2) by done. unfold traza_generar.
  assert (size_mul (size_t d) sizeof_int = 4 * d) as ->.
  { unfold Int32.MAX in Hd. unfold size_mul, size_t, sizeof_int.
    rewrite (Z.mod_small d) by lia. rewrite Z.mod_small by lia. lia. }
  unfold tipo_triangular. cbn [bloques].
  rewrite <- !list_fmap_compose. reflexivity.
Qed.

Lemma X14_llamadas_del_constructor_testigo :
  ∃ tipo,
    generar_tipo_triangular_superior 3 entorno_ejemplo (estado_inicial [])
    = (Hecho tipo,
       {| traza := traza (estado_inicial []) ++
            [EvMalloc (4 * 3) (Some (bloque_nuevo (4 * 3) (λ _, 0)));
             EvMalloc (4 * 3) (Some (bloque_nuevo (4 * 3) (λ _, 0)));
             EvTypeIndexed (bloques tipo);
             EvTypeCommit;
             EvFree (Some (fst <$> bloques tipo));
             EvFree (Some (snd <$> bloques tipo))];
          n_malloc := S (S (n_malloc (estado_inicial [])));
          buzon := buzon (estado_inicial []) |})
    ∧ confirmado tipo = true.
Proof.
  apply (X14_llamadas_del_constructor entorno_ejemplo (estado_inicial []) 3
           (λ _, 0) (λ _, 0)).
  - unfold Int32.MAX. lia.
  - reflexivity.
  - reflexivity.
Defined.
